(** * dev-to-git: the publication pipeline of [src/dev-to-git.ts]

    A shallow embedding of the [DevToGit] class and of the top-level script
    that drives it, followed by the properties of the repository resolver,
    the configuration loader, the rate-limited publication loop and the
    exit decision. *)

From Stdlib Require Import String Ascii List NArith ZArith Bool Lia.
From Stdlib Require Import SpecFloat Decimal DecimalString.
Import ListNotations.

Local Open Scope N_scope.
Local Open Scope list_scope.

(** ** JavaScript strings *)

(** A JavaScript string is a sequence of UTF-16 code units. *)
Definition code_unit := N.
Definition jsstring := list code_unit.

(** ASCII literals of the source, as code-unit sequences. *)
Definition str (s : string) : jsstring :=
  map N_of_ascii (list_ascii_of_string s).

Definition cu_slash : code_unit := 47.
Definition cu_quote : code_unit := 34.

(** A text between double quotes. *)
Definition quoted (s : jsstring) : jsstring := cu_quote :: s ++ [cu_quote].

Fixpoint jsstring_eqb (a b : jsstring) : bool :=
  match a, b with
  | [], [] => true
  | x :: a', y :: b' => N.eqb x y && jsstring_eqb a' b'
  | _, _ => false
  end.

(** ** Regular expressions (the fragment [repositoryRe] uses)

    Each construct is a backtracking matcher in continuation-passing style, as
    in the ECMAScript semantics: a matcher gets the input still to be read
    and a continuation for the rest of the pattern, and answers with the
    first success in priority order. *)
Module RegExp.

Section Matchers.
Context {R : Type}.

Definition Continuation := jsstring -> option R.
Definition Matcher := jsstring -> Continuation -> option R.

(** LineTerminator: LF, CR, LS (U+2028), PS (U+2029). *)
Definition isLineTerminator (c : code_unit) : bool :=
  N.eqb c 10 || N.eqb c 13 || N.eqb c 8232 || N.eqb c 8233.

(** [.] matches any code unit that is not a line terminator. *)
Definition dot (c : code_unit) : bool := negb (isLineTerminator c).

(** A pattern character ([\/], [\.], [g], ...). *)
Definition r_char (c : code_unit) : Matcher :=
  fun s k =>
    match s with
    | x :: s' => if N.eqb x c then k s' else None
    | [] => None
    end.

(** A sequence of pattern characters. *)
Fixpoint r_lit (l : jsstring) : Matcher :=
  fun s k =>
    match l with
    | [] => k s
    | c :: l' => r_char c s (fun s' => r_lit l' s' k)
    end.

(** [.*], greedy: one more character is tried first, and the
    continuation is run on what is left only when that fails. *)
Fixpoint r_dot_star (s : jsstring) (k : Continuation) : option R :=
  match s with
  | c :: s' =>
      if dot c then
        match r_dot_star s' k with
        | Some r => Some r
        | None => k s
        end
      else k s
  | [] => k []
  end.

(** A capturing group: the continuation also gets the text the group's
    body has read. *)
Definition r_group (m : Matcher) (s : jsstring)
    (k : jsstring -> Continuation) : option R :=
  m s (fun s' => k (firstn (length s - length s')%nat s) s').

(** [RegExp.prototype.exec] without the global flag: the pattern is tried
    at index 0, 1, ... up to the end of the input. *)
Fixpoint exec (m : jsstring -> option R) (s : jsstring) : option R :=
  match m s with
  | Some r => Some r
  | None =>
      match s with
      | [] => None
      | _ :: s' => exec m s'
      end
  end.
End Matchers.

End RegExp.

(** ** The repository resolver *)

Record Repository := { username : jsstring; name : jsstring }.

(** The pattern [repositoryRe] of the source, read left to right: a greedy
    run of [.], a slash, group 1 (a greedy run of [.]), a slash, group 2 (a
    greedy run of [.]) and the four characters of [.git] (the dot escaped).
    It is written from its end: [re_git] is the pattern from [.git] on,
    [re_name] from the second slash on, [re_username] from the first slash
    on.  The answer is the pair of capture groups 1 and 2. *)
Definition re_git (g1 g2 : jsstring)
    : @RegExp.Continuation (jsstring * jsstring) :=
  fun s => RegExp.r_lit (str ".git") s (fun _ => Some (g1, g2)).

Definition re_name (g1 : jsstring)
    : @RegExp.Continuation (jsstring * jsstring) :=
  fun s =>
    RegExp.r_char cu_slash s (fun s' =>
    RegExp.r_group RegExp.r_dot_star s' (fun g2 => re_git g1 g2)).

Definition re_username : @RegExp.Continuation (jsstring * jsstring) :=
  fun s =>
    RegExp.r_char cu_slash s (fun s' =>
    RegExp.r_group RegExp.r_dot_star s' re_name).

Definition repositoryRe (s : jsstring) : option (jsstring * jsstring) :=
  RegExp.r_dot_star s re_username.

(** [repo.match(repositoryRe)] *)
Definition String_match_repositoryRe (repo : jsstring)
    : option (jsstring * jsstring) :=
  RegExp.exec repositoryRe repo.

(** [parseRepository(repo: string | null): Repository | null]; [None] is
    both an absent argument and the [null] result. *)
Definition parseRepository (repo : option jsstring) : option Repository :=
  match repo with
  | None => None
  | Some [] => None
  | Some s =>
      match String_match_repositoryRe s with
      | None => None
      | Some (g1, g2) => Some {| username := g1; name := g2 |}
      end
  end.

(** The texts a run of [.] can read, and the texts without a slash. *)
Definition dotOnly (s : jsstring) : bool := forallb RegExp.dot s.

Definition slashFree (s : jsstring) : bool :=
  forallb (fun c => negb (N.eqb c cu_slash)) s.

(** [s.startsWith(p)] and [s.includes(p)]. *)
Fixpoint startsWith (p s : jsstring) : bool :=
  match p, s with
  | [], _ => true
  | c :: p', x :: s' => N.eqb c x && startsWith p' s'
  | _ :: _, [] => false
  end.

Fixpoint includes (p s : jsstring) : bool :=
  startsWith p s ||
  match s with
  | [] => false
  | _ :: s' => includes p s'
  end.

(** ** Values of JSON files *)

(** What [JSON.parse] builds.  A number is a binary64 value; the properties
    of an object are listed in property order, each name once. *)
#[local] Unset Elimination Schemes.
Inductive JSON : Type :=
| JNull
| JBool (b : bool)
| JNumber (x : spec_float)
| JString (s : jsstring)
| JArray (items : list JSON)
| JObject (props : list (jsstring * JSON)).
#[local] Set Elimination Schemes.

(** The own property [key] of a property list. *)
Fixpoint getOwn (key : jsstring) (props : list (jsstring * JSON))
    : option JSON :=
  match props with
  | [] => None
  | (k, v) :: rest => if jsstring_eqb k key then Some v else getOwn key rest
  end.

(** Defining [key] on an object under construction: an existing property
    keeps its place and takes the new value, a new one goes last. *)
Fixpoint defineOwn (key : jsstring) (v : JSON) (props : list (jsstring * JSON))
    : list (jsstring * JSON) :=
  match props with
  | [] => [(key, v)]
  | (k, v0) :: rest =>
      if jsstring_eqb k key then (k, v) :: rest
      else (k, v0) :: defineOwn key v rest
  end.

(** The canonical name of an array index. *)
Definition indexName (i : nat) : jsstring :=
  str (NilZero.string_of_uint (Nat.to_uint i)).

Fixpoint indexed (i : nat) (items : list JSON) : list (jsstring * JSON) :=
  match items with
  | [] => []
  | v :: rest => (indexName i, v) :: indexed (S i) rest
  end.

(** The own enumerable properties an object spread copies from [v]:
    those of an object, the elements of an array, the code units of a
    string, nothing from [null], a boolean or a number. *)
Definition ownEnumerableProperties (v : JSON) : list (jsstring * JSON) :=
  match v with
  | JObject props => props
  | JArray items => indexed 0 items
  | JString s => indexed 0 (map (fun c => JString [c]) s)
  | JNull | JBool _ | JNumber _ => []
  end.

(** [!v] *)
Definition falsy (v : JSON) : bool :=
  match v with
  | JNull => true
  | JBool b => negb b
  | JNumber (S754_zero _) | JNumber S754_nan => true
  | JNumber _ => false
  | JString s => match s with [] => true | _ => false end
  | JArray _ | JObject _ => false
  end.

(** ** Completions, errors and the process *)

Inductive Error : Type :=
| SystemError (path : jsstring)   (* [fs.readFileSync] cannot read the file *)
| SyntaxError                     (* [JSON.parse] *)
| TypeError                       (* a property of [null], a call of a non-function *)
| PlainError                      (* [Error()] without a message *)
| OtherError (message : jsstring).

(** How an evaluation ends: with a value, with a thrown error, or with the
    process ended by [process.exit(code)]. *)
Inductive Completion (A : Type) : Type :=
| Normal (a : A)
| Throw (e : Error)
| Exit (code : Z).
Arguments Normal {A} a.
Arguments Throw {A} e.
Arguments Exit {A} code.

(** [v.key] for a name that is neither an index, nor [length], nor defined on
    a built-in prototype ([repository] and [url] are such names); [None] is
    [undefined]. *)
Definition getProperty (v : option JSON) (key : jsstring)
    : Completion (option JSON) :=
  match v with
  | None | Some JNull => Throw TypeError
  | Some (JObject props) => Normal (getOwn key props)
  | Some _ => Normal None
  end.

(** [parseRepository] called on a value whose static type is [any]: a falsy
    value takes the early [return null], a string goes through the pattern,
    and anything else has no [match] method to call. *)
Definition parseRepository_any (v : option JSON)
    : Completion (option Repository) :=
  match v with
  | None => Normal None
  | Some (JString s) => Normal (parseRepository (Some s))
  | Some v' => if falsy v' then Normal None else Throw TypeError
  end.

(** [chalk.red(...)] or plain text handed to the logger. *)
Inductive Text : Type :=
| Plain (s : jsstring)
| Red (s : jsstring).

(** The value of [configuration.repository] as a property value. *)
Definition repositoryValue (r : Repository) : JSON :=
  JObject [(str "username", JString (username r)); (str "name", JString (name r))].

(** An [ArticleConfig]: the properties of the entry of the configuration
    file and [repository]. *)
Definition ArticleConfig := list (jsstring * JSON).

(** Modelled from the spec: the enumeration [UpdateStatus] of
    [dev-to-git.interface], which the sources do not include.  The closed set
    of kinds is created, updated, unchanged, error and malformed front
    matter; the last two are named [ERROR] and
    [FAILED_TO_EXTRACT_FRONT_MATTER] in [dev-to-git.ts]. *)
Inductive UpdateStatus : Type :=
| CREATED
| UPDATED
| ALREADY_UP_TO_DATE
| ERROR
| FAILED_TO_EXTRACT_FRONT_MATTER.

(** Modelled from the spec: [ArticlePublishedStatus] of
    [dev-to-git.interface]; it carries at least an identifier of the article
    and an [updateStatus]. *)
Record ArticlePublishedStatus := {
  articleId : N;
  updateStatus : UpdateStatus
}.

(** What [article.publishArticle()] settles with. *)
Inductive PublishOutcome : Type :=
| Resolved (status : ArticlePublishedStatus)
| Rejected (e : Error).

(** [commander]'s [program] after [parse(process.argv)]. *)
Record ProgramOptions := {
  config : jsstring;
  devToToken : option jsstring;
  repositoryUrl : option jsstring;
  silent : bool
}.

(** [ConfigurationOptions]: the program options and the resolved repository. *)
Record ConfigurationOptions := {
  options : ProgramOptions;
  repository : Repository
}.

Definition DEFAULT_CONFIG_PATH : jsstring := str "./dev-to-git.json".
Definition ARTICLE_UPLOAD_INTERVAL : N := 3000.

(** Modelled from the spec: the rate limiter of the [throttled-queue]
    package, which the sources do not include.  It is a single-slot scheduler
    with a cursor for the next eligible time: a submitted unit of work starts
    when it is submitted or at the cursor, whichever is later, and the cursor
    moves to one interval after that start; the first submission finds the
    cursor at 0 and is not delayed. *)
Record ThrottledQueue := {
  maxRequestsPerInterval : N;
  interval : N;
  nextEligible : N
}.

Definition throttledQueue (maxRequests intervalMs : N) : ThrottledQueue :=
  {| maxRequestsPerInterval := maxRequests;
     interval := intervalMs;
     nextEligible := 0 |}.

(** Modelled from the spec: the queue after a unit of work that started at
    [started]; the cursor is one interval later. *)
Definition queueAfter (q : ThrottledQueue) (started : N) : ThrottledQueue :=
  {| maxRequestsPerInterval := maxRequestsPerInterval q;
     interval := interval q;
     nextEligible := started + interval q |}.

(** The instance of [DevToGit]. *)
Record DevToGit := {
  configuration : ConfigurationOptions;
  queue : ThrottledQueue
}.

Definition isFailure (u : UpdateStatus) : bool :=
  match u with
  | ERROR | FAILED_TO_EXTRACT_FRONT_MATTER => true
  | _ => false
  end.

(** What a run does, in order.  [StatusChecked] is not an effect of the
    program: it marks one evaluation of the condition of the exit decision. *)
Inductive Event : Type :=
| Logger (t : Text)                 (* a call of [this.logger] *)
| ConsoleError (e : Error)          (* [console.error(error)] *)
| PublishCall (conf : ArticleConfig) (started : N)
| StatusChecked (article : ArticlePublishedStatus).

(** The world of a run: the state [Article.publishArticle] reads and changes
    (the remote platform, the article files), the clock and what has been
    done so far. *)
Record World (Remote : Type) : Type := {
  remote : Remote;
  now : N;                          (* the clock, in milliseconds *)
  trace : list Event
}.
Arguments remote {Remote} w.
Arguments now {Remote} w.
Arguments trace {Remote} w.

(** Sample data: a configuration file of two entries, program options and
    status lists. *)
Module Sample.

Definition entry1 : JSON :=
  JObject [(str "id", JNumber (S754_finite false 1 0));
           (str "relativePathToArticle", JString (str "./blog/a.md"))].
Definition entry2 : JSON :=
  JObject [(str "id", JNumber (S754_finite false 1 1));
           (str "relativePathToArticle", JString (str "./blog/b.md"))].

Definition configFile : JSON := JArray [entry1; entry2].

Definition manifest : JSON :=
  JObject [(str "name", JString (str "blog"));
           (str "repository",
            JObject [(str "type", JString (str "git"));
                     (str "url",
                      JString (str "https://example.com/alice/blog.git"))])].

Definition alice_blog : Repository :=
  {| username := str "alice"; name := str "blog" |}.

Definition opts : ProgramOptions :=
  {| config := DEFAULT_CONFIG_PATH;
     devToToken := Some (str "token");
     repositoryUrl := None;
     silent := false |}.

Definition created (i : N) : ArticlePublishedStatus :=
  {| articleId := i; updateStatus := CREATED |}.
Definition failed (i : N) : ArticlePublishedStatus :=
  {| articleId := i; updateStatus := ERROR |}.

(** An environment: the remote state counts the calls made; the files are
    named by short texts that stand for their contents. *)
Definition Remote : Type := nat.

(** A publisher whose first call resolves with an error status and whose
    later calls resolve with a success. *)
Definition publishResolving (conf : ArticleConfig) (token : option jsstring)
    (calls : Remote) : PublishOutcome * Remote * N :=
  (Resolved (if Nat.eqb calls 0 then failed 1 else created 2), S calls, 100).

(** A publisher whose second call rejects. *)
Definition publishRejecting (conf : ArticleConfig) (token : option jsstring)
    (calls : Remote) : PublishOutcome * Remote * N :=
  (if Nat.eqb calls 1 then Rejected (OtherError (str "socket hang up"))
   else Resolved (created 1),
   S calls, 100).

Definition readFileSync (path : jsstring) : option jsstring :=
  if jsstring_eqb path (str "./package.json") then Some (str "manifest")
  else if jsstring_eqb path DEFAULT_CONFIG_PATH then Some (str "articles")
  else None.

Definition JSON_parse (text : jsstring) : option JSON :=
  if jsstring_eqb text (str "manifest") then Some manifest
  else if jsstring_eqb text (str "articles") then Some configFile
  else None.

(** A file system without a manifest. *)
Definition readFileSync_bare (path : jsstring) : option jsstring :=
  if jsstring_eqb path DEFAULT_CONFIG_PATH then Some (str "articles")
  else None.

Definition format (articles : list ArticlePublishedStatus) : jsstring :=
  str "summary".

Definition w0 : World Remote := {| remote := 0%nat; now := 5; trace := [] |}.

Definition devToGit : DevToGit :=
  {| configuration := {| options := opts; repository := alice_blog |};
     queue := throttledQueue 1 ARTICLE_UPLOAD_INTERVAL |}.

(** The same command line without a token, and with another path of the
    configuration file. *)
Definition opts_without_token : ProgramOptions :=
  {| config := DEFAULT_CONFIG_PATH;
     devToToken := None;
     repositoryUrl := None;
     silent := false |}.

Definition opts_elsewhere : ProgramOptions :=
  {| config := str "./elsewhere.json";
     devToToken := Some (str "token");
     repositoryUrl := None;
     silent := false |}.

(** A manifest that declares its repository in the short form. *)
Definition manifest_short : list (jsstring * JSON) :=
  [(str "name", JString (str "blog"));
   (str "repository", JString (str "github:alice/blog"))].

Definition JSON_parse_short (text : jsstring) : option JSON :=
  if jsstring_eqb text (str "manifest") then Some (JObject manifest_short)
  else if jsstring_eqb text (str "articles") then Some configFile
  else None.

End Sample.

(** ** The program

    The environment of a run: the state the publisher acts on, the publisher,
    the file system, [JSON.parse] and the report formatter of [helpers]. *)
Section Program.

(** The state [Article.publishArticle] reads and changes. *)
Variable Remote : Type.

(** [new Article(articleConf, token).publishArticle()]: what it settles
    with, the state it leaves and the time it takes, in milliseconds. *)
Variable publishArticle :
  ArticleConfig -> option jsstring -> Remote -> PublishOutcome * Remote * N.

(** [fs.readFileSync(path).toString()]; [None] when the file cannot be
    read. *)
Variable readFileSync : jsstring -> option jsstring.

(** [JSON.parse(text)]; [None] when it throws. *)
Variable JSON_parse : jsstring -> option JSON.

(** [formatArticlePublishedStatuses] of [helpers]. *)
Variable formatArticlePublishedStatuses :
  list ArticlePublishedStatus -> jsstring.

(** Computations of the program: they read and change the world and end in
    a completion. *)
Definition M (A : Type) : Type :=
  World Remote -> Completion A * World Remote.

Definition ret {A} (a : A) : M A := fun w => (Normal a, w).

Definition bind {A B} (c : M A) (k : A -> M B) : M B :=
  fun w =>
    match c w with
    | (Normal a, w') => k a w'
    | (Throw e, w') => (Throw e, w')
    | (Exit code, w') => (Exit code, w')
    end.

Definition throw {A} (e : Error) : M A := fun w => (Throw e, w).

(** [process.exit(code)] *)
Definition process_exit {A} (code : Z) : M A := fun w => (Exit code, w).

(** [try { body } catch (error) { handler }] *)
Definition try_catch {A} (body : M A) (handler : Error -> M A) : M A :=
  fun w =>
    match body w with
    | (Throw e, w') => handler e w'
    | other => other
    end.

Definition lift {A} (c : Completion A) : M A := fun w => (c, w).

Definition emit (ev : Event) : M unit :=
  fun w =>
    (Normal tt,
     {| remote := remote w; now := now w; trace := trace w ++ [ev] |}).

Notation "x <- c ;; k" := (bind c (fun x => k))
  (at level 61, c at next level, right associativity).
Notation "c ;;; k" := (bind c (fun _ => k))
  (at level 61, right associativity).

(** [this.logger(text)]; the logger is built by [logBuilder] of [helpers],
    and the run records the call. *)
Definition logger (t : Text) : M unit := emit (Logger t).

Definition console_error (e : Error) : M unit := emit (ConsoleError e).

Definition repositoryDiagnostic : jsstring :=
  str "If you do not specify --repository-url, you must have within your "
  ++ quoted (str "package.json") ++ str " a " ++ quoted (str "repository")
  ++ str " attribute which is an object and contains itself an attribute "
  ++ quoted (str "url")
  ++ str " like the following: https://github-gitlab-whatever.com/username/repository-name.git - this will be used to generate images links if necessary".

(** The body of the [try] of [extractRepository]: it reads and changes
    nothing but the manifest it parses. *)
Definition manifestRepository : Completion Repository :=
  match readFileSync (str "./package.json") with
  | None => Throw (SystemError (str "./package.json"))
  | Some text =>
      match JSON_parse text with
      | None => Throw SyntaxError
      | Some packageJson =>
          match getProperty (Some packageJson) (str "repository") with
          | Normal declared =>
              match getProperty declared (str "url") with
              | Normal url =>
                  match parseRepository_any url with
                  | Normal (Some repo) => Normal repo
                  | Normal None => Throw PlainError
                  | Throw e => Throw e
                  | Exit code => Exit code
                  end
              | Throw e => Throw e
              | Exit code => Exit code
              end
          | Throw e => Throw e
          | Exit code => Exit code
          end
      end
  end.

Definition extractRepository : M Repository :=
  try_catch (lift manifestRepository)
    (fun _ => logger (Red repositoryDiagnostic) ;;; throw PlainError).

(** [this.parseRepository(program.repositoryUrl) || this.extractRepository()] *)
Definition resolveRepository (url : option jsstring) : M Repository :=
  match parseRepository url with
  | Some repo => ret repo
  | None => extractRepository
  end.

Definition tokenDiagnostic : jsstring :=
  str "DEV_TO_GIT_TOKEN environment variable, or --dev-to-token argument is required".

Definition isEmptyOrAbsent (s : option jsstring) : bool :=
  match s with
  | None | Some [] => true
  | Some _ => false
  end.

(** [constructor()], after the command line has been parsed. *)
Definition constructor (program : ProgramOptions) : M DevToGit :=
  repo <- resolveRepository (repositoryUrl program) ;;
  (if isEmptyOrAbsent (devToToken program)
   then logger (Red tokenDiagnostic) ;;; process_exit 1%Z
   else ret tt) ;;;
  ret {| configuration := {| options := program; repository := repo |};
         queue := throttledQueue 1 ARTICLE_UPLOAD_INTERVAL |}.

Definition getConfigPath (this : DevToGit) : jsstring :=
  config (options (configuration this)).

(** The object literal of [readConfigFile]: the spread of the entry, then
    [repository]. *)
Definition withRepository (repo : Repository) (articleConfigFile : JSON)
    : ArticleConfig :=
  defineOwn (str "repository") (repositoryValue repo)
    (ownEnumerableProperties articleConfigFile).

Definition readConfigFile (this : DevToGit) : Completion (list ArticleConfig) :=
  match readFileSync (getConfigPath this) with
  | None => Throw (SystemError (getConfigPath this))
  | Some text =>
      match JSON_parse text with
      | None => Throw SyntaxError
      | Some (JArray articleConfigFiles) =>
          Normal (map (withRepository (repository (configuration this)))
                      articleConfigFiles)
      | Some _ => Throw TypeError       (* no [map] to call *)
      end
  end.

(** One call of [article.publishArticle()]: the call is recorded with the
    time it starts at, the clock moves by the time it takes. *)
Definition Article_publishArticle (articleConf : ArticleConfig)
    (token : option jsstring) : M ArticlePublishedStatus :=
  fun w =>
    let '(outcome, remote', elapsed) :=
      publishArticle articleConf token (remote w) in
    let w' := {| remote := remote';
                 now := now w + elapsed;
                 trace := trace w ++ [PublishCall articleConf (now w)] |} in
    match outcome with
    | Resolved status => (Normal status, w')
    | Rejected e => (Throw e, w')
    end.

(** Modelled from the spec: [await this.queue(fn)] on the rate limiter of
    [throttled-queue].  The unit of work starts when it is submitted or at
    the cursor, whichever is later: the clock moves to that start, the cursor
    to one interval later, and the promise settles as [fn] does. *)
Definition ThrottledQueue_call {A} (q : ThrottledQueue) (fn : M A)
    : M (A * ThrottledQueue) :=
  fun w =>
    let started := N.max (now w) (nextEligible q) in
    bind fn (fun a => ret (a, queueAfter q started))
      {| remote := remote w; now := started; trace := trace w |}.

(** The [for ... of] loop of [publishArticles]; [articlePublishedStatuses]
    holds the statuses pushed so far. *)
Fixpoint publishLoop (token : option jsstring) (q : ThrottledQueue)
    (articles : list ArticleConfig)
    (articlePublishedStatuses : list ArticlePublishedStatus)
    : M (list ArticlePublishedStatus) :=
  match articles with
  | [] => ret articlePublishedStatuses
  | articleConf :: rest =>
      pushed <- ThrottledQueue_call q
                  (status <- Article_publishArticle articleConf token ;;
                   ret (articlePublishedStatuses ++ [status])) ;;
      publishLoop token (snd pushed) rest (fst pushed)
  end.

Definition publishArticles (this : DevToGit)
    : M (list ArticlePublishedStatus) :=
  articles <- lift (readConfigFile this) ;;
  publishLoop (devToToken (options (configuration this))) (queue this)
    articles [].

(** [array.forEach(callback)] *)
Fixpoint Array_forEach {A} (array : list A) (callback : A -> M unit)
    : M unit :=
  match array with
  | [] => ret tt
  | x :: rest => callback x ;;; Array_forEach rest callback
  end.

(** The callback of the [forEach] of the script. *)
Definition exitOnFailure (article : ArticlePublishedStatus) : M unit :=
  emit (StatusChecked article) ;;;
  if isFailure (updateStatus article) then process_exit 1%Z else ret tt.

(** The second [then] of the script. *)
Definition report (articles : list ArticlePublishedStatus) : M unit :=
  logger (Plain (formatArticlePublishedStatuses articles)) ;;;
  Array_forEach articles exitOnFailure.

Definition publishingDiagnostic : jsstring :=
  str "An error occurred while publishing the articles".

(** The [catch] of the script. *)
Definition onRejected (error : Error) : M unit :=
  logger (Red publishingDiagnostic) ;;;
  console_error error ;;;
  process_exit 1%Z.

(** The exit code of the process for a completion of the script: the code
    given to [process.exit], 1 for an uncaught error, 0 when the script
    runs to its end. *)
Definition exitCode {A} (c : Completion A) : Z :=
  match c with
  | Normal _ => 0%Z
  | Throw _ => 1%Z
  | Exit code => code
  end.

(** The script at the end of the file: [new DevToGit()], then
    [publishArticles().then(...).then(...).catch(...)]. *)
Definition main (program : ProgramOptions) : M unit :=
  devToGit <- constructor program ;;
  try_catch (articles <- publishArticles devToGit ;; report articles)
            onRejected.

(** The entries the decision has evaluated its condition on, in order. *)
Fixpoint checkedStatuses (events : list Event) : list ArticlePublishedStatus :=
  match events with
  | [] => []
  | StatusChecked article :: rest => article :: checkedStatuses rest
  | _ :: rest => checkedStatuses rest
  end.

(** The configurations published and the times the calls started at. *)
Fixpoint publishCalls (events : list Event) : list (ArticleConfig * N) :=
  match events with
  | [] => []
  | PublishCall conf started :: rest => (conf, started) :: publishCalls rest
  | _ :: rest => publishCalls rest
  end.

(** The outcomes of publishing [articles] one after the other from the
    state [r]. *)
Fixpoint outcomes (token : option jsstring) (articles : list ArticleConfig)
    (r : Remote) : list PublishOutcome :=
  match articles with
  | [] => []
  | conf :: rest =>
      let '(outcome, r', _) := publishArticle conf token r in
      outcome :: outcomes token rest r'
  end.

(** The times the calls take when [articles] are published one after the
    other from the state [r]. *)
Fixpoint elapsedTimes (token : option jsstring) (articles : list ArticleConfig)
    (r : Remote) : list N :=
  match articles with
  | [] => []
  | conf :: rest =>
      let '(_, r', elapsed) := publishArticle conf token r in
      elapsed :: elapsedTimes token rest r'
  end.

(** The times the publish calls of a trace started at. *)
Definition startTimes (events : list Event) : list N :=
  map snd (publishCalls events).

(** The events of publish calls of given configurations and start times. *)
Definition publishEvents (calls : list (ArticleConfig * N)) : list Event :=
  map (fun call => PublishCall (fst call) (snd call)) calls.

(** The entries of a status list up to the first one whose kind is
    [ERROR] or [FAILED_TO_EXTRACT_FRONT_MATTER], that one included. *)
Fixpoint throughFirstFailure (articles : list ArticlePublishedStatus)
    : list ArticlePublishedStatus :=
  match articles with
  | [] => []
  | article :: rest =>
      if isFailure (updateStatus article) then [article]
      else article :: throughFirstFailure rest
  end.

(** Whether some entry of a status list has one of the two failing
    kinds. *)
Definition anyFailure (articles : list ArticlePublishedStatus) : bool :=
  existsb (fun article => isFailure (updateStatus article)) articles.

(** ** Properties of the pattern matcher *)

Section RegExpFacts.
Context {R : Type}.
Implicit Types (k : @RegExp.Continuation R) (s a b : jsstring).

(** Reading more of a run of [.] first: a success further right wins. *)
Lemma r_dot_star_skip k a b r :
  dotOnly a = true ->
  RegExp.r_dot_star b k = Some r ->
  RegExp.r_dot_star (a ++ b) k = Some r.
Proof.
  induction a as [|c a IH]; simpl; intros Ha Hb; [exact Hb|].
  apply andb_prop in Ha as [Hc Ha].
  rewrite Hc, (IH Ha Hb). reflexivity.
Qed.

(** When every longer read fails, the star reads nothing. *)
Lemma r_dot_star_stop k b :
  (forall b1 b2, b = b1 ++ b2 -> b1 <> [] -> k b2 = None) ->
  RegExp.r_dot_star b k = k b.
Proof.
  induction b as [|c b IH]; simpl; intros H; [reflexivity|].
  destruct (RegExp.dot c); [|reflexivity].
  rewrite IH.
  - rewrite (H [c] b); [reflexivity | reflexivity | discriminate].
  - intros b1 b2 -> Hne. apply (H (c :: b1) b2); [reflexivity | discriminate].
Qed.

(** A star ahead of a continuation that can succeed succeeds. *)
Lemma r_dot_star_progress k a b :
  dotOnly a = true ->
  k b <> None ->
  RegExp.r_dot_star (a ++ b) k <> None.
Proof.
  induction a as [|c a IH]; simpl; intros Ha Hb.
  - destruct b as [|c b]; simpl; [exact Hb|].
  destruct (RegExp.dot c); [|exact Hb].
  destruct (RegExp.r_dot_star b k); [discriminate | exact Hb].
  - apply andb_prop in Ha as [Hc Ha]. rewrite Hc.
  specialize (IH Ha Hb).
  destruct (RegExp.r_dot_star (a ++ b) k); [discriminate | contradiction].
Qed.

(** What a successful star has read: a run of [.], as long as the
    continuation allows. *)
Lemma r_dot_star_inv k s r :
  RegExp.r_dot_star s k = Some r ->
  exists a b,
  s = a ++ b /\ dotOnly a = true /\ k b = Some r /\
  (forall b1 b2, b = b1 ++ b2 -> b1 <> [] -> dotOnly b1 = true ->
                 k b2 = None).
Proof.
  induction s as [|c s IH]; simpl; intros H.
  - exists [], []. repeat split; trivial.
  intros b1 b2 Hb Hne. destruct b1; [contradiction | discriminate].
  - destruct (RegExp.dot c) eqn:Hc.
  + destruct (RegExp.r_dot_star s k) as [r'|] eqn:Hs.
    * injection H as ->.
      destruct (IH eq_refl) as (a & b & -> & Ha & Hk & Hmax).
      exists (c :: a), b. repeat split; trivial.
      unfold dotOnly in *. simpl. rewrite Hc, Ha. reflexivity.
    * exists [], (c :: s). repeat split; trivial.
      intros b1 b2 Hb Hne Hd.
      destruct b1 as [|c1 b1]; [contradiction|].
      injection Hb as <- ->.
      apply andb_prop in Hd as [_ Hd].
      destruct (k b2) eqn:Hk; [|reflexivity].
      exfalso. apply (r_dot_star_progress k b1 b2 Hd); [|exact Hs].
      rewrite Hk. discriminate.
  + exists [], (c :: s). repeat split; trivial.
    intros b1 b2 Hb Hne Hd.
    destruct b1 as [|c1 b1]; [contradiction|].
    injection Hb as <- ->.
    unfold dotOnly in Hd. simpl in Hd. rewrite Hc in Hd. discriminate.
Qed.

Lemma r_char_inv c s k r :
  RegExp.r_char c s k = Some r -> exists s', s = c :: s' /\ k s' = Some r.
Proof.
  destruct s as [|x s]; simpl; [discriminate|].
  destruct (N.eqb_spec x c) as [->|]; [|discriminate].
  intros H. exists s. split; [reflexivity | exact H].
Qed.

Lemma r_char_here c s k : RegExp.r_char c (c :: s) k = k s.
Proof. simpl. rewrite N.eqb_refl. reflexivity. Qed.

Lemma r_lit_inv l s k r :
  RegExp.r_lit l s k = Some r -> exists z, s = l ++ z /\ k z = Some r.
Proof.
  revert s. induction l as [|c l IH]; simpl; intros s H.
  - exists s. split; [reflexivity | exact H].
  - apply r_char_inv in H as (s' & -> & H).
  destruct (IH _ H) as (z & -> & Hz).
  exists z. split; [reflexivity | exact Hz].
Qed.

Lemma r_lit_here l z k : RegExp.r_lit l (l ++ z) k = k z.
Proof.
  induction l as [|c l IH]; [reflexivity|].
  simpl. rewrite N.eqb_refl. exact IH.
Qed.

Lemma firstn_read a b :
  firstn (List.length (a ++ b) - List.length b) (a ++ b) = a.
Proof.
  rewrite length_app, Nat.add_sub.
  rewrite firstn_app, Nat.sub_diag, firstn_all. simpl. apply app_nil_r.
Qed.

(** The three facts about the star, for a group whose body is a star. *)
Lemma group_star_inv (K : jsstring -> @RegExp.Continuation R) s r :
  RegExp.r_group RegExp.r_dot_star s K = Some r ->
  exists a b,
  s = a ++ b /\ dotOnly a = true /\ K a b = Some r /\
  (forall b1 b2, b = b1 ++ b2 -> b1 <> [] -> dotOnly b1 = true ->
                 K (a ++ b1) b2 = None).
Proof.
  unfold RegExp.r_group. intros H.
  apply r_dot_star_inv in H as (a & b & -> & Ha & Hk & Hmax).
  rewrite firstn_read in Hk.
  exists a, b. repeat split; trivial.
  intros b1 b2 -> Hne Hd.
  specialize (Hmax b1 b2 eq_refl Hne Hd).
  rewrite app_assoc, firstn_read in Hmax. exact Hmax.
Qed.

Lemma group_star_progress (K : jsstring -> @RegExp.Continuation R) a b :
  dotOnly a = true ->
  K a b <> None ->
  RegExp.r_group RegExp.r_dot_star (a ++ b) K <> None.
Proof.
  intros Ha Hk. unfold RegExp.r_group.
  apply r_dot_star_progress; [exact Ha|].
  rewrite firstn_read. exact Hk.
Qed.

Lemma group_star_exact (K : jsstring -> @RegExp.Continuation R) a b r :
  dotOnly a = true ->
  K a b = Some r ->
  (forall b1 b2, b = b1 ++ b2 -> b1 <> [] -> K (a ++ b1) b2 = None) ->
  RegExp.r_group RegExp.r_dot_star (a ++ b) K = Some r.
Proof.
  intros Ha Hk Hmax. unfold RegExp.r_group.
  apply r_dot_star_skip; [exact Ha|].
  rewrite r_dot_star_stop.
  - rewrite firstn_read. exact Hk.
  - intros b1 b2 -> Hne.
  rewrite app_assoc, firstn_read. apply Hmax; trivial.
Qed.

(** [exec] answers with a match of the pattern at some index. *)
Lemma exec_inv (m : jsstring -> option R) s r :
  RegExp.exec m s = Some r ->
  exists skipped t, s = skipped ++ t /\ m t = Some r.
Proof.
  induction s as [|c s IH]; simpl; intros H.
  - exists [], []. split; [reflexivity|].
  destruct (m []); [exact H | discriminate].
  - destruct (m (c :: s)) eqn:Hm.
  + exists [], (c :: s). split; [reflexivity|]. congruence.
  + destruct (IH H) as (skipped & t & -> & Ht).
    exists (c :: skipped), t. split; [reflexivity | exact Ht].
Qed.

Lemma exec_first (m : jsstring -> option R) s r :
  m s = Some r -> RegExp.exec m s = Some r.
Proof. intros H. destruct s; simpl; rewrite H; reflexivity. Qed.

Lemma exec_progress (m : jsstring -> option R) skipped t :
  m t <> None -> RegExp.exec m (skipped ++ t) <> None.
Proof.
  intros Ht. induction skipped as [|c skipped IH]; simpl.
  - destruct t; simpl; destruct (m _); congruence.
  - destruct (m (c :: skipped ++ t)); [discriminate | exact IH].
Qed.
End RegExpFacts.


(** ** Properties of [repositoryRe] *)

Lemma dotOnly_app a b : dotOnly (a ++ b) = dotOnly a && dotOnly b.
Proof. apply forallb_app. Qed.

Lemma slashFree_app a b : slashFree (a ++ b) = slashFree a && slashFree b.
Proof. apply forallb_app. Qed.

Lemma slashFree_split s :
  slashFree s = false -> exists x1 x2, s = x1 ++ cu_slash :: x2.
Proof.
  induction s as [|c s IH]; simpl; intros H; [discriminate|].
  destruct (N.eqb_spec c cu_slash) as [->|Hc].
  - exists [], s. reflexivity.
  - simpl in H. destruct (IH H) as (x1 & x2 & ->).
    exists (c :: x1), x2. reflexivity.
Qed.

Lemma re_git_inv g1 g2 s r :
  re_git g1 g2 s = Some r -> exists z, s = str ".git" ++ z /\ r = (g1, g2).
Proof.
  unfold re_git. intros H. apply r_lit_inv in H as (z & -> & Hz).
  exists z. split; [reflexivity | congruence].
Qed.

Lemma re_git_here g1 g2 z : re_git g1 g2 (str ".git" ++ z) = Some (g1, g2).
Proof.
  unfold re_git. exact (r_lit_here (str ".git") z (fun _ => Some (g1, g2))).
Qed.

Lemma re_name_inv g1 s r :
  re_name g1 s = Some r ->
  exists g2 z,
    s = cu_slash :: g2 ++ str ".git" ++ z /\ dotOnly g2 = true /\ r = (g1, g2).
Proof.
  unfold re_name. intros H.
  apply r_char_inv in H as (s' & -> & H).
  apply group_star_inv in H as (g2 & b & -> & Hd & H & _).
  apply re_git_inv in H as (z & -> & ->).
  exists g2, z. repeat split; trivial.
Qed.

Lemma re_name_progress g1 y z :
  dotOnly y = true -> re_name g1 (cu_slash :: y ++ str ".git" ++ z) <> None.
Proof.
  intros Hy. unfold re_name. rewrite r_char_here.
  apply group_star_progress; [exact Hy|].
  rewrite re_git_here. discriminate.
Qed.

Lemma re_username_inv s r :
  re_username s = Some r ->
  exists z,
    s = cu_slash :: fst r ++ cu_slash :: snd r ++ str ".git" ++ z /\
    dotOnly (fst r) = true /\ dotOnly (snd r) = true.
Proof.
  unfold re_username. intros H.
  apply r_char_inv in H as (s' & -> & H).
  apply group_star_inv in H as (g1 & b & -> & Hd1 & H & _).
  apply re_name_inv in H as (g2 & z & -> & Hd2 & ->).
  exists z. repeat split; trivial.
Qed.

Lemma re_username_progress x y z :
  dotOnly x = true -> dotOnly y = true ->
  re_username (cu_slash :: x ++ cu_slash :: y ++ str ".git" ++ z) <> None.
Proof.
  intros Hx Hy. unfold re_username. rewrite r_char_here.
  apply group_star_progress; [exact Hx|].
  apply re_name_progress. exact Hy.
Qed.

(** A match of the pattern: where the groups lie, and that the greedy first
    star leaves no slash to either of them. *)
Lemma repositoryRe_inv t g1 g2 :
  repositoryRe t = Some (g1, g2) ->
  (exists a z, t = a ++ cu_slash :: g1 ++ cu_slash :: g2 ++ str ".git" ++ z) /\
  slashFree g1 = true /\ slashFree g2 = true.
Proof.
  unfold repositoryRe. intros H.
  apply r_dot_star_inv in H as (a & b & -> & Ha & Hb & Hmax).
  apply re_username_inv in Hb as (z & -> & Hd1 & Hd2). simpl in *.
  split; [exists a, z; reflexivity|].
  split.
  - destruct (slashFree g1) eqn:Hs; [reflexivity | exfalso].
    apply slashFree_split in Hs as (x1 & x2 & ->).
    rewrite dotOnly_app in Hd1. apply andb_prop in Hd1 as [Hx1 Hx2].
    apply andb_prop in Hx2 as [_ Hx2].
    apply (re_username_progress x2 g2 z Hx2 Hd2).
    apply (Hmax (cu_slash :: x1)); [|discriminate|exact Hx1].
    simpl. rewrite <- app_assoc. reflexivity.
  - destruct (slashFree g2) eqn:Hs; [reflexivity | exfalso].
    apply slashFree_split in Hs as (y1 & y2 & ->).
    rewrite dotOnly_app in Hd2. apply andb_prop in Hd2 as [Hy1 Hy2].
    apply andb_prop in Hy2 as [_ Hy2].
    apply (re_username_progress y1 y2 z Hy1 Hy2).
    apply (Hmax (cu_slash :: g1)); [|discriminate|exact Hd1].
    simpl. rewrite <- !app_assoc. reflexivity.
Qed.

Lemma startsWith_app p z : startsWith p (p ++ z) = true.
Proof.
  induction p as [|c p IH]; [reflexivity|].
  simpl. rewrite N.eqb_refl. exact IH.
Qed.

Lemma includes_app p x z : includes p (x ++ p ++ z) = true.
Proof.
  induction x as [|c x IH].
  - simpl. pose proof (startsWith_app p z) as H.
    destruct (p ++ z); simpl; rewrite H; reflexivity.
  - simpl. rewrite IH. apply orb_true_r.
Qed.

(** A slash of [a ++ post] lies in [post] when [a] has none. *)
Lemma slash_in_post a post x w :
  slashFree a = true ->
  a ++ post = x ++ cu_slash :: w ->
  exists p1, post = p1 ++ cu_slash :: w.
Proof.
  revert x. induction a as [|c a IH]; simpl; intros x Ha H.
  - exists x. exact H.
  - apply andb_prop in Ha as [Hc Ha].
    destruct x as [|c' x]; simpl in H; injection H as -> H.
    + rewrite N.eqb_refl in Hc. discriminate.
    + apply (IH x Ha H).
Qed.

(** The pattern on a text in which [.git] follows two slash-free segments
    and does not occur again. *)
Lemma repositoryRe_exact pre u n post :
  dotOnly pre = true -> dotOnly u = true -> dotOnly n = true ->
  slashFree u = true -> slashFree n = true ->
  includes (str ".git") post = false ->
  repositoryRe (pre ++ cu_slash :: u ++ cu_slash :: n ++ str ".git" ++ post)
  = Some (u, n).
Proof.
  intros Hpre Hu Hn Su Sn Hpost.
  assert (Hgit : forall x z, post <> x ++ str ".git" ++ z).
  { intros x z ->. rewrite includes_app in Hpost. discriminate. }
  assert (Sng : slashFree (n ++ str ".git") = true).
  { rewrite slashFree_app, Sn. reflexivity. }
  assert (H3 : RegExp.r_group RegExp.r_dot_star (n ++ str ".git" ++ post)
                 (fun g2 => re_git u g2) = Some (u, n)).
  { apply group_star_exact; [exact Hn | apply re_git_here |].
    intros b1 b2 Hb Hne.
    destruct (re_git u (n ++ b1) b2) eqn:E; [exfalso | reflexivity].
    apply re_git_inv in E as (z & -> & _).
    destruct b1 as [|c1 [|c2 [|c3 [|c4 b1]]]]; [contradiction | | | |];
      simpl in Hb; try (injection Hb; intros; subst; discriminate).
    injection Hb as <- <- <- <- Hb. apply (Hgit b1 z). exact Hb. }
  assert (H2 : re_name u (cu_slash :: n ++ str ".git" ++ post) = Some (u, n)).
  { unfold re_name. rewrite r_char_here. exact H3. }
  assert (H1 : re_username (cu_slash :: u ++ cu_slash :: n ++ str ".git" ++ post)
               = Some (u, n)).
  { unfold re_username. rewrite r_char_here.
    apply group_star_exact; [exact Hu | exact H2 |].
    intros b1 b2 Hb Hne.
    destruct (re_name (u ++ b1) b2) eqn:E; [exfalso | reflexivity].
    apply re_name_inv in E as (g2 & z & -> & _ & _).
    destruct b1 as [|c b1]; [contradiction|].
    injection Hb as <- Hb.
    destruct (slash_in_post (n ++ str ".git") post b1
                (g2 ++ str ".git" ++ z) Sng) as (p1 & Hp);
      [rewrite <- app_assoc; exact Hb|].
    apply (Hgit (p1 ++ cu_slash :: g2) z). rewrite Hp, <- app_assoc. reflexivity. }
  unfold repositoryRe. apply r_dot_star_skip; [exact Hpre|].
  rewrite r_dot_star_stop; [exact H1|].
  intros b1 b2 Hb Hne.
  destruct (re_username b2) as [r|] eqn:E; [exfalso | reflexivity].
  apply re_username_inv in E as (z & -> & _ & _).
  destruct b1 as [|c b1]; [contradiction|].
  injection Hb as <- Hb.
  (* the first slash of [b2] is the one before [n], or lies in [post] *)
  assert (Hcase : exists p1 w,
            post = p1 ++ cu_slash :: w ++ str ".git" ++ z).
  { destruct (app_eq_app _ _ _ _ Hb) as (l & [[-> Hl] | [-> Hl]]).
    - destruct l as [|c l].
      + simpl in Hl. injection Hl as Hl.
        destruct (slash_in_post (n ++ str ".git") post (fst r)
                    (snd r ++ str ".git" ++ z) Sng) as (p1 & Hp);
          [rewrite <- app_assoc; symmetry; exact Hl|].
        exists p1, (snd r). exact Hp.
      + exfalso. injection Hl as Hc _. subst c.
        rewrite slashFree_app in Su.
        apply andb_prop in Su as [_ Su]. simpl in Su. discriminate.
    - destruct l as [|c l].
      + simpl in Hl. injection Hl as Hl.
        destruct (slash_in_post (n ++ str ".git") post (fst r)
                    (snd r ++ str ".git" ++ z) Sng) as (p1 & Hp);
          [rewrite <- app_assoc; exact Hl|].
        exists p1, (snd r). exact Hp.
      + injection Hl as _ Hl.
        destruct (slash_in_post (n ++ str ".git") post l
                    (fst r ++ cu_slash :: snd r ++ str ".git" ++ z) Sng)
          as (p1 & Hp); [rewrite <- app_assoc; exact Hl|].
        exists p1, (fst r ++ cu_slash :: snd r).
        rewrite Hp, <- app_assoc. reflexivity. }
  destruct Hcase as (p1 & w & Hp).
  apply (Hgit (p1 ++ cu_slash :: w) z). rewrite Hp, <- app_assoc. reflexivity.
Qed.

(** ** Properties of [parseRepository] *)

Lemma parseRepository_match s :
  parseRepository (Some s)
  = match String_match_repositoryRe s with
    | None => None
    | Some (g1, g2) => Some {| username := g1; name := g2 |}
    end.
Proof. destruct s; reflexivity. Qed.

Lemma parseRepository_exact pre u n post :
  dotOnly pre = true -> dotOnly u = true -> dotOnly n = true ->
  slashFree u = true -> slashFree n = true ->
  includes (str ".git") post = false ->
  parseRepository
    (Some (pre ++ cu_slash :: u ++ cu_slash :: n ++ str ".git" ++ post))
  = Some {| username := u; name := n |}.
Proof.
  intros Hpre Hu Hn Su Sn Hpost.
  rewrite parseRepository_match. unfold String_match_repositoryRe.
  rewrite (exec_first repositoryRe _ (u, n)); [reflexivity|].
  apply repositoryRe_exact; assumption.
Qed.

Lemma parseRepository_inv s r :
  parseRepository (Some s) = Some r ->
  slashFree (username r) = true /\ slashFree (name r) = true /\
  exists before after,
    s = before ++ cu_slash :: username r ++ cu_slash :: name r
               ++ str ".git" ++ after.
Proof.
  rewrite parseRepository_match. unfold String_match_repositoryRe.
  destruct (RegExp.exec repositoryRe s) as [[g1 g2]|] eqn:E; [|discriminate].
  intros H. injection H as <-. simpl.
  apply exec_inv in E as (skipped & t & -> & E).
  apply repositoryRe_inv in E as ((a & z & ->) & S1 & S2).
  repeat split; trivial.
  exists (skipped ++ a), z. rewrite <- app_assoc. reflexivity.
Qed.

Lemma parseRepository_progress pre u n post :
  dotOnly u = true -> dotOnly n = true ->
  parseRepository
    (Some (pre ++ cu_slash :: u ++ cu_slash :: n ++ str ".git" ++ post))
  <> None.
Proof.
  intros Hu Hn. rewrite parseRepository_match.
  unfold String_match_repositoryRe.
  destruct (RegExp.exec repositoryRe _) as [[g1 g2]|] eqn:E; [discriminate|].
  exfalso. revert E. apply exec_progress.
  unfold repositoryRe.
  apply (r_dot_star_progress re_username []); [reflexivity|].
  apply re_username_progress; assumption.
Qed.

(** C6: on a text made of a run of characters that [.] reads, a slash, a
    username, a slash, a name and [.git], where username and name are
    slash-free runs of such characters, [parseRepository] returns that
    username and that name; on every text in which the pattern occurs it
    returns a repository, and whatever it returns on any text is slash-free
    and stands in the text between slashes right before [.git]; the
    documented URL gives alice and blog, and a text without [.git] gives
    [null]. *)
Theorem C6_parseRepository_segments :
  (forall pre u n,
     dotOnly pre = true -> dotOnly u = true -> dotOnly n = true ->
     slashFree u = true -> slashFree n = true ->
     parseRepository (Some (pre ++ cu_slash :: u ++ cu_slash :: n ++ str ".git"))
     = Some {| username := u; name := n |}) /\
  (forall pre u n post,
     dotOnly u = true -> dotOnly n = true ->
     exists r,
       parseRepository
         (Some (pre ++ cu_slash :: u ++ cu_slash :: n ++ str ".git" ++ post))
       = Some r /\
       slashFree (username r) = true /\ slashFree (name r) = true /\
       exists before after,
         pre ++ cu_slash :: u ++ cu_slash :: n ++ str ".git" ++ post
         = before ++ cu_slash :: username r ++ cu_slash :: name r
                  ++ str ".git" ++ after) /\
  (forall s r,
     parseRepository (Some s) = Some r ->
     slashFree (username r) = true /\ slashFree (name r) = true /\
     exists before after,
       s = before ++ cu_slash :: username r ++ cu_slash :: name r
                  ++ str ".git" ++ after) /\
  parseRepository (Some (str "https://example.com/alice/blog.git"))
  = Some {| username := str "alice"; name := str "blog" |} /\
  parseRepository (Some (str "https://example.com/alice/blog")) = None /\
  (forall s, includes (str ".git") s = false -> parseRepository (Some s) = None).
Proof.
  split; [|split; [|split; [|split; [|split]]]].
  - intros pre u n Hpre Hu Hn Su Sn.
    rewrite <- (app_nil_r (str ".git")).
    apply parseRepository_exact; trivial.
  - intros pre u n post Hu Hn.
    destruct (parseRepository
                (Some (pre ++ cu_slash :: u ++ cu_slash :: n
                           ++ str ".git" ++ post))) as [r|] eqn:E.
    + exists r. split; [reflexivity|]. apply parseRepository_inv. exact E.
    + exfalso. exact (parseRepository_progress pre u n post Hu Hn E).
  - exact parseRepository_inv.
  - vm_compute. reflexivity.
  - vm_compute. reflexivity.
  - intros s Hs.
    destruct (parseRepository (Some s)) as [r|] eqn:E; [exfalso | reflexivity].
    apply parseRepository_inv in E as (_ & _ & before & after & ->).
    assert (E : before ++ cu_slash :: username r ++ cu_slash :: name r
                       ++ str ".git" ++ after
                = (before ++ cu_slash :: username r ++ cu_slash :: name r)
                  ++ str ".git" ++ after).
    { rewrite <- app_assoc. simpl. rewrite <- app_assoc. reflexivity. }
    rewrite E, includes_app in Hs. discriminate.
Qed.

(** C10: the pattern is not anchored: [parseRepository] succeeds on every
    text that contains a slash, a run of characters that [.] reads, a slash,
    another such run and [.git], whatever stands before and after;
    the documented URL followed by [/extra] gives alice and blog; and when
    the two runs are slash-free and what follows [.git] holds no further
    [.git], what follows is ignored. *)
Theorem C10_parseRepository_unanchored :
  (forall pre u n post,
     dotOnly u = true -> dotOnly n = true ->
     parseRepository
       (Some (pre ++ cu_slash :: u ++ cu_slash :: n ++ str ".git" ++ post))
     <> None) /\
  parseRepository (Some (str "https://example.com/alice/blog.git/extra"))
  = Some {| username := str "alice"; name := str "blog" |} /\
  (forall pre u n post,
     dotOnly pre = true -> dotOnly u = true -> dotOnly n = true ->
     slashFree u = true -> slashFree n = true ->
     includes (str ".git") post = false ->
     parseRepository
       (Some (pre ++ cu_slash :: u ++ cu_slash :: n ++ str ".git" ++ post))
     = Some {| username := u; name := n |}).
Proof.
  split; [|split].
  - exact parseRepository_progress.
  - vm_compute. reflexivity.
  - exact parseRepository_exact.
Qed.

(** ** The exit decision *)

Lemma forEach_exitOnFailure articles w :
  Array_forEach articles exitOnFailure w
  = (if anyFailure articles then Exit 1%Z else Normal tt,
     {| remote := remote w; now := now w;
        trace := trace w
                 ++ map StatusChecked (throughFirstFailure articles) |}).
Proof.
  revert w. induction articles as [|a rest IH]; intros w.
  - simpl. unfold ret. rewrite app_nil_r. destruct w; reflexivity.
  - simpl. unfold bind at 1. unfold exitOnFailure, bind, emit. simpl.
    destruct (isFailure (updateStatus a)); simpl.
    + reflexivity.
    + rewrite IH. simpl. rewrite <- app_assoc. reflexivity.
Qed.

Lemma report_spec articles w :
  report articles w
  = (if anyFailure articles then Exit 1%Z else Normal tt,
     {| remote := remote w; now := now w;
        trace := trace w
                 ++ Logger (Plain (formatArticlePublishedStatuses articles))
                 :: map StatusChecked (throughFirstFailure articles) |}).
Proof.
  unfold report, logger, bind, emit. simpl.
  rewrite forEach_exitOnFailure. simpl. rewrite <- app_assoc. reflexivity.
Qed.

Lemma checkedStatuses_app e1 e2 :
  checkedStatuses (e1 ++ e2) = checkedStatuses e1 ++ checkedStatuses e2.
Proof.
  induction e1 as [|ev e1 IH]; [reflexivity|].
  destruct ev; simpl; rewrite IH; reflexivity.
Qed.

Lemma checkedStatuses_map l : checkedStatuses (map StatusChecked l) = l.
Proof. induction l as [|a l IH]; simpl; [|rewrite IH]; reflexivity. Qed.

Lemma anyFailure_iff articles :
  anyFailure articles = true <->
  exists article,
    In article articles /\
    (updateStatus article = ERROR \/
     updateStatus article = FAILED_TO_EXTRACT_FRONT_MATTER).
Proof.
  unfold anyFailure. rewrite existsb_exists.
  split; intros (a & Hin & H); exists a; (split; [exact Hin|]).
  - destruct (updateStatus a); try discriminate; auto.
  - destruct H as [-> | ->]; reflexivity.
Qed.

Lemma throughFirstFailure_cases articles :
  (anyFailure articles = false /\ throughFirstFailure articles = articles) \/
  (exists before article after,
     articles = before ++ article :: after /\
     anyFailure before = false /\
     isFailure (updateStatus article) = true /\
     throughFirstFailure articles = before ++ [article]).
Proof.
  induction articles as [|a rest IH]; [left; split; reflexivity|].
  simpl. destruct (isFailure (updateStatus a)) eqn:Ha.
  - right. exists [], a, rest. repeat split; trivial.
  - destruct IH as [[Hnone Hall] | (before & b & after & -> & Hb & Hf & Hc)].
    + left. simpl. rewrite Hall. split; [exact Hnone | reflexivity].
    + right. exists (a :: before), b, after. simpl.
      rewrite Ha, Hb, Hc. repeat split; trivial.
Qed.

(** C2, as the code has it: the second [then] logs the summary of the whole
    status list and then evaluates the condition on the entries in order,
    up to the first one whose kind is [ERROR] or
    [FAILED_TO_EXTRACT_FRONT_MATTER], where [process.exit(1)] ends the
    process; the entries after it are not inspected.  The exit code is the
    one the reduction over the whole list gives. *)
Theorem C2_exit_decision_stops_at_first_failure :
  forall articles w,
    exists checked,
      trace (snd (report articles w))
      = trace w
        ++ Logger (Plain (formatArticlePublishedStatuses articles))
        :: map StatusChecked checked /\
      ((anyFailure articles = false /\ checked = articles) \/
       (exists before article after,
          articles = before ++ article :: after /\
          anyFailure before = false /\
          isFailure (updateStatus article) = true /\
          checked = before ++ [article])) /\
      exitCode (fst (report articles w))
      = (if anyFailure articles then 1%Z else 0%Z).
Proof.
  intros articles w. rewrite report_spec. simpl.
  exists (throughFirstFailure articles).
  split; [reflexivity|]. split; [apply throughFirstFailure_cases|].
  destruct (anyFailure articles); reflexivity.
Qed.

(** C3: the exit code of the process after the report is non-zero exactly
    when some entry of the status list has kind [ERROR] or
    [FAILED_TO_EXTRACT_FRONT_MATTER]; a success, an error and a success
    give a failed run, two successes a successful one, and so does the
    empty list. *)
Theorem C3_exit_code_iff_any_failure :
  (forall articles w,
     exitCode (fst (report articles w)) <> 0%Z <->
     exists article,
       In article articles /\
       (updateStatus article = ERROR \/
        updateStatus article = FAILED_TO_EXTRACT_FRONT_MATTER)) /\
  (forall w,
     exitCode (fst (report [Sample.created 1; Sample.failed 2;
                            Sample.created 3] w)) = 1%Z) /\
  (forall w,
     exitCode (fst (report [Sample.created 1; Sample.created 2] w)) = 0%Z) /\
  (forall w, exitCode (fst (report [] w)) = 0%Z).
Proof.
  split; [|repeat split; intros w; rewrite report_spec; reflexivity].
  intros articles w. rewrite report_spec, <- anyFailure_iff. simpl.
  destruct (anyFailure articles); simpl; split; congruence.
Qed.

(** ** The publication loop *)

(** One turn of the loop. *)
Lemma publishLoop_step token q conf rest acc w :
  publishLoop token q (conf :: rest) acc w
  = let started := N.max (now w) (nextEligible q) in
    let w1 := {| remote := snd (fst (publishArticle conf token (remote w)));
                 now := started + snd (publishArticle conf token (remote w));
                 trace := trace w ++ [PublishCall conf started] |} in
    match fst (fst (publishArticle conf token (remote w))) with
    | Resolved status =>
        publishLoop token (queueAfter q started) rest (acc ++ [status]) w1
    | Rejected e => (Throw e, w1)
    end.
Proof.
  simpl. unfold bind at 1. unfold ThrottledQueue_call.
  unfold bind at 1. unfold bind at 1. unfold Article_publishArticle. simpl.
  destruct (publishArticle conf token (remote w)) as [[outcome r'] elapsed].
  simpl. destruct outcome; reflexivity.
Qed.

Lemma publishCalls_app e1 e2 :
  publishCalls (e1 ++ e2) = publishCalls e1 ++ publishCalls e2.
Proof.
  induction e1 as [|ev e1 IH]; [reflexivity|].
  destruct ev; simpl; rewrite IH; reflexivity.
Qed.

Lemma publishCalls_publishEvents calls :
  publishCalls (publishEvents calls) = calls.
Proof.
  induction calls as [|[c t] calls IH]; simpl; [|rewrite IH]; reflexivity.
Qed.

(** When every call resolves, the loop goes through all the articles. *)
Lemma publishLoop_resolved token articles :
  forall q acc w statuses,
    outcomes token articles (remote w) = map Resolved statuses ->
    exists w' starts,
      publishLoop token q articles acc w = (Normal (acc ++ statuses), w') /\
      List.length starts = List.length articles /\
      trace w' = trace w ++ publishEvents (combine articles starts).
Proof.
  induction articles as [|conf rest IH]; intros q acc w statuses H.
  - destruct statuses; [|discriminate].
    exists w, []. simpl. unfold ret. rewrite !app_nil_r. auto.
  - rewrite publishLoop_step. simpl in H |- *.
    destruct (publishArticle conf token (remote w)) as [[outcome r'] elapsed].
    destruct statuses as [|status statuses]; [discriminate|].
    simpl in H. injection H as -> H. simpl.
    edestruct (IH (queueAfter q (N.max (now w) (nextEligible q)))
                  (acc ++ [status])
                  {| remote := r';
                     now := N.max (now w) (nextEligible q) + elapsed;
                     trace := trace w
                              ++ [PublishCall conf
                                    (N.max (now w) (nextEligible q))] |}
                  statuses H) as (w' & starts & Hrun & Hlen & Htrace).
    exists w', (N.max (now w) (nextEligible q) :: starts).
    rewrite Hrun, <- app_assoc. simpl in *.
    rewrite Hlen, Htrace, <- app_assoc. auto.
Qed.

(** When a call rejects, the loop ends there with that error. *)
Lemma publishLoop_rejected token articles :
  forall q acc w statuses e others,
    outcomes token articles (remote w)
    = map Resolved statuses ++ Rejected e :: others ->
    exists w' starts,
      publishLoop token q articles acc w = (Throw e, w') /\
      List.length starts = S (List.length statuses) /\
      trace w'
      = trace w
        ++ publishEvents
             (combine (firstn (S (List.length statuses)) articles) starts).
Proof.
  induction articles as [|conf rest IH]; intros q acc w statuses e others H.
  - destruct statuses; discriminate.
  - rewrite publishLoop_step. simpl in H |- *.
    destruct (publishArticle conf token (remote w)) as [[outcome r'] elapsed].
    destruct statuses as [|status statuses]; simpl in H; injection H as -> H.
    + simpl. eexists. exists [N.max (now w) (nextEligible q)].
      split; [reflexivity|]. split; reflexivity.
    + simpl.
      edestruct (IH (queueAfter q (N.max (now w) (nextEligible q)))
                    (acc ++ [status])
                    {| remote := r';
                       now := N.max (now w) (nextEligible q) + elapsed;
                       trace := trace w
                                ++ [PublishCall conf
                                      (N.max (now w) (nextEligible q))] |}
                    statuses e others H)
        as (w' & starts & Hrun & Hlen & Htrace).
      exists w', (N.max (now w) (nextEligible q) :: starts).
      rewrite Hrun. simpl in *. rewrite Hlen, Htrace, <- app_assoc. auto.
Qed.

Lemma outcomes_length token articles r :
  List.length (outcomes token articles r) = List.length articles.
Proof.
  revert r. induction articles as [|conf rest IH]; intros r; [reflexivity|].
  simpl. destruct (publishArticle conf token r) as [[outcome r'] elapsed].
  simpl. rewrite IH. reflexivity.
Qed.

Lemma outcomes_resolved token articles :
  (forall conf r, exists status,
      fst (fst (publishArticle conf token r)) = Resolved status) ->
  forall r, exists statuses,
    outcomes token articles r = map Resolved statuses.
Proof.
  intros H. induction articles as [|conf rest IH]; intros r.
  - exists []. reflexivity.
  - simpl. destruct (H conf r) as (status & Hs).
    destruct (publishArticle conf token r) as [[outcome r'] elapsed].
    simpl in Hs. subst outcome.
    destruct (IH r') as (statuses & ->).
    exists (status :: statuses). reflexivity.
Qed.

Lemma map_fst_combine_same {A B} (l : list A) (l' : list B) :
  List.length l' = List.length l -> map fst (combine l l') = l.
Proof.
  revert l'. induction l as [|a l IH]; intros [|b l'] H;
    try discriminate; [reflexivity|].
  simpl. rewrite IH; [reflexivity|]. simpl in H. lia.
Qed.

(** A constructor that returns has logged nothing. *)
Lemma constructor_normal program w this w' :
  constructor program w = (Normal this, w') ->
  w' = w /\
  queue this = throttledQueue 1 ARTICLE_UPLOAD_INTERVAL /\
  options (configuration this) = program.
Proof.
  unfold constructor, bind, resolveRepository, extractRepository, try_catch,
    lift, logger, emit, throw, process_exit, ret.
  destruct (parseRepository (repositoryUrl program)).
  - destruct (isEmptyOrAbsent (devToToken program)); simpl; [discriminate|].
    intros H. injection H as <- <-. auto.
  - destruct manifestRepository; simpl; try discriminate.
    destruct (isEmptyOrAbsent (devToToken program)); simpl; [discriminate|].
    intros H. injection H as <- <-. auto.
Qed.

(** C1: when every publish call resolves with a status, of whatever kind,
    [publishArticles] returns one status per article configuration of the
    list it has read, the i-th status being the outcome of publishing the
    i-th configuration, and it has called the publisher on every
    configuration, in the order of the list. *)
Theorem C1_publishArticles_keeps_order :
  forall this w articles,
    readConfigFile this = Normal articles ->
    (forall conf r, exists status,
        fst (fst (publishArticle conf
                    (devToToken (options (configuration this))) r))
        = Resolved status) ->
    exists statuses w',
      publishArticles this w = (Normal statuses, w') /\
      List.length statuses = List.length articles /\
      map Resolved statuses
      = outcomes (devToToken (options (configuration this))) articles
          (remote w) /\
      map fst (publishCalls (trace w'))
      = map fst (publishCalls (trace w)) ++ articles.
Proof.
  intros this w articles Hread Hres.
  destruct (outcomes_resolved _ articles Hres (remote w)) as (statuses & Hout).
  destruct (publishLoop_resolved _ articles (queue this) [] w statuses Hout)
    as (w' & starts & Hrun & Hlen & Htrace).
  exists statuses, w'.
  unfold publishArticles, bind, lift. rewrite Hread, Hrun.
  split; [reflexivity|]. split; [|split].
  - rewrite <- (length_map Resolved), <- Hout. apply outcomes_length.
  - symmetry. exact Hout.
  - rewrite Htrace, publishCalls_app, publishCalls_publishEvents, map_app.
    rewrite map_fst_combine_same; [reflexivity | exact Hlen].
Qed.

(** C4: when a publish call rejects, [publishArticles] rejects with that
    error: the configurations after the rejected one are not published and
    no status list is returned; the script logs the generic message and the
    error, not the summary, and the process exits with code 1. *)
Theorem C4_rejected_publish_aborts_run :
  forall program w0 this w1 articles statuses e others,
    constructor program w0 = (Normal this, w1) ->
    readConfigFile this = Normal articles ->
    outcomes (devToToken (options (configuration this))) articles (remote w1)
    = map Resolved statuses ++ Rejected e :: others ->
    exists w2 w3 starts,
      publishArticles this w1 = (Throw e, w2) /\
      main program w0 = (Exit 1%Z, w3) /\
      exitCode (fst (main program w0)) = 1%Z /\
      List.length starts = S (List.length statuses) /\
      map fst (publishCalls (trace w3))
      = map fst (publishCalls (trace w0))
        ++ firstn (S (List.length statuses)) articles /\
      trace w3
      = trace w0
        ++ publishEvents
             (combine (firstn (S (List.length statuses)) articles) starts)
        ++ [Logger (Red publishingDiagnostic); ConsoleError e].
Proof.
  intros program w0 this w1 articles statuses e others Hnew Hread Hout.
  destruct (constructor_normal _ _ _ _ Hnew) as (-> & _ & _).
  destruct (publishLoop_rejected _ articles (queue this) [] w0
              statuses e others Hout)
    as (w2 & starts & Hrun & Hlen & Htrace).
  assert (Hpub : publishArticles this w0 = (Throw e, w2)).
  { unfold publishArticles, bind, lift. rewrite Hread. exact Hrun. }
  assert (Hmain : main program w0
                  = (Exit 1%Z,
                     {| remote := remote w2; now := now w2;
                        trace := (trace w2 ++ [Logger (Red publishingDiagnostic)])
                                 ++ [ConsoleError e] |})).
  { unfold main. unfold bind at 1. rewrite Hnew.
    unfold try_catch. unfold bind at 1. rewrite Hpub. reflexivity. }
  eexists w2, _, starts. rewrite Hmain.
  split; [exact Hpub|]. split; [reflexivity|]. split; [reflexivity|].
  split; [exact Hlen|]. cbn [trace snd]. rewrite Htrace. split.
  - rewrite !publishCalls_app, publishCalls_publishEvents.
    cbn [publishCalls]. rewrite !app_nil_r, map_app.
    rewrite map_fst_combine_same; [reflexivity|].
    rewrite Hlen, firstn_length_le; [reflexivity|].
    rewrite <- (outcomes_length (devToToken (options (configuration this)))
                  articles (remote w0)), Hout.
    rewrite length_app, length_map. simpl. lia.
  - rewrite <- !app_assoc. reflexivity.
Qed.

(** ** The spacing of the publish calls *)

Lemma startTimes_cons conf started events :
  startTimes (PublishCall conf started :: events)
  = started :: startTimes events.
Proof. reflexivity. Qed.

(** The calls of the loop: the first starts when the queue lets it, and
    each next one at least one interval after the one before. *)
Lemma publishLoop_spacing token articles :
  forall q acc w,
    exists events,
      trace (snd (publishLoop token q articles acc w)) = trace w ++ events /\
      (forall t, nth_error (startTimes events) 0 = Some t ->
                 t = N.max (now w) (nextEligible q)) /\
      (forall i t1 t2,
          nth_error (startTimes events) i = Some t1 ->
          nth_error (startTimes events) (S i) = Some t2 ->
          t1 + interval q <= t2).
Proof.
  induction articles as [|conf rest IH]; intros q acc w.
  - exists []. simpl. rewrite app_nil_r. split; [reflexivity|].
    split; [discriminate|]. intros [|i]; discriminate.
  - rewrite publishLoop_step. cbv zeta.
    set (started := N.max (now w) (nextEligible q)).
    destruct (publishArticle conf token (remote w)) as [[outcome r'] elapsed].
    cbn [fst snd]. destruct outcome as [status|e].
    + destruct (IH (queueAfter q started) (acc ++ [status])
                   {| remote := r'; now := started + elapsed;
                      trace := trace w ++ [PublishCall conf started] |})
        as (events & Htrace & Hfirst & Hnext).
      exists (PublishCall conf started :: events).
      rewrite Htrace. cbn [trace]. rewrite <- app_assoc.
      split; [reflexivity|]. rewrite startTimes_cons.
      split.
      * cbn [nth_error]. intros t H. injection H as <-. reflexivity.
      * intros [|i] t1 t2; cbn [nth_error]; intros H1 H2.
        -- injection H1 as <-. rewrite (Hfirst t2 H2).
           cbn [now nextEligible queueAfter]. lia.
        -- apply (Hnext i t1 t2 H1 H2).
    + exists [PublishCall conf started]. cbn [snd trace].
      split; [reflexivity|]. rewrite startTimes_cons.
      split.
      * cbn [nth_error]. intros t H. injection H as <-. reflexivity.
      * intros [|[|i]] t1 t2; cbn [nth_error startTimes publishCalls map];
          intros H1 H2; discriminate.
Qed.

(** C5: whatever the options of the run, the queue of a constructed
    [DevToGit] has the interval 3000 ms; the first publish call of
    [publishArticles] starts at the time [publishArticles] is called, and
    each later one starts at least 3000 ms after the start of the one
    before it. *)
Theorem C5_publish_calls_are_spaced :
  forall program w0 this w1,
    constructor program w0 = (Normal this, w1) ->
    interval (queue this) = 3000 /\
    exists events,
      trace (snd (publishArticles this w1)) = trace w1 ++ events /\
      (forall t, nth_error (startTimes events) 0 = Some t -> t = now w1) /\
      (forall i t1 t2,
          nth_error (startTimes events) i = Some t1 ->
          nth_error (startTimes events) (S i) = Some t2 ->
          t1 + 3000 <= t2).
Proof.
  intros program w0 this w1 Hnew.
  destruct (constructor_normal _ _ _ _ Hnew) as (_ & Hq & _).
  split; [rewrite Hq; reflexivity|].
  unfold publishArticles, bind, lift.
  destruct (readConfigFile this) as [articles|e|code].
  - destruct (publishLoop_spacing
                (devToToken (options (configuration this))) articles
                (queue this) [] w1) as (events & Htrace & Hfirst & Hnext).
    exists events. split; [exact Htrace|]. rewrite Hq in Hfirst, Hnext.
    split; [|exact Hnext].
    intros t H. rewrite (Hfirst t H). cbn [nextEligible throttledQueue]. lia.
  - exists []. cbn [snd]. rewrite app_nil_r. split; [reflexivity|].
    split; [discriminate|]. intros [|i]; discriminate.
  - exists []. cbn [snd]. rewrite app_nil_r. split; [reflexivity|].
    split; [discriminate|]. intros [|i]; discriminate.
Qed.

(** ** The repository resolver and the configuration loader *)

Lemma jsstring_eqb_eq a b : jsstring_eqb a b = true <-> a = b.
Proof.
  revert b. induction a as [|x a IH]; intros [|y b]; simpl;
    try (split; [discriminate | discriminate]); [tauto|].
  rewrite andb_true_iff, N.eqb_eq, IH.
  split; [intros [-> ->]; reflexivity | intros H; injection H; auto].
Qed.

Lemma jsstring_eqb_neq a b : a <> b -> jsstring_eqb a b = false.
Proof.
  intros H. destruct (jsstring_eqb a b) eqn:E; [|reflexivity].
  apply jsstring_eqb_eq in E. contradiction.
Qed.

Lemma getOwn_defineOwn_same key v props :
  getOwn key (defineOwn key v props) = Some v.
Proof.
  induction props as [|[k v0] rest IH]; simpl.
  - rewrite (proj2 (jsstring_eqb_eq key key) eq_refl). reflexivity.
  - destruct (jsstring_eqb k key) eqn:E; simpl; rewrite E; [reflexivity|].
    exact IH.
Qed.

Lemma getOwn_defineOwn_other key v props key' :
  key' <> key ->
  getOwn key' (defineOwn key v props) = getOwn key' props.
Proof.
  intros Hne. induction props as [|[k v0] rest IH]; simpl.
  - rewrite jsstring_eqb_neq; [reflexivity | auto].
  - destruct (jsstring_eqb k key) eqn:E; simpl.
    + apply jsstring_eqb_eq in E. subst k.
      rewrite jsstring_eqb_neq; [reflexivity | auto].
    + rewrite IH. reflexivity.
Qed.

(** The names of the properties other than [key], in order. *)
Lemma names_defineOwn key v props :
  filter (fun k => negb (jsstring_eqb k key)) (map fst (defineOwn key v props))
  = filter (fun k => negb (jsstring_eqb k key)) (map fst props).
Proof.
  induction props as [|[k v0] rest IH]; simpl.
  - rewrite (proj2 (jsstring_eqb_eq key key) eq_refl). reflexivity.
  - destruct (jsstring_eqb k key) eqn:E; simpl; rewrite E; simpl;
      [reflexivity | rewrite IH; reflexivity].
Qed.

Lemma extractRepository_spec w :
  extractRepository w
  = match manifestRepository with
    | Normal repo => (Normal repo, w)
    | Throw _ =>
        (Throw PlainError,
         {| remote := remote w; now := now w;
            trace := trace w ++ [Logger (Red repositoryDiagnostic)] |})
    | Exit code => (Exit code, w)
    end.
Proof.
  unfold extractRepository, try_catch, lift.
  destruct manifestRepository; reflexivity.
Qed.

(** C7: when [parseRepository] gives [null] for the repository URL of the
    command line, absent or not, the repository is the one
    [extractRepository] gets by applying [parseRepository] to the [url] of
    the [repository] of [package.json]; when the manifest gives none
    either, the diagnostic is logged, the constructor throws, and the
    process ends with code 1 without a publish call. *)
Theorem C7_manifest_fallback_and_fatal_error :
  parseRepository None = None /\
  (forall program w,
     parseRepository (repositoryUrl program) = None ->
     resolveRepository (repositoryUrl program) w = extractRepository w) /\
  (forall w text packageProps declaredProps url,
     readFileSync (str "./package.json") = Some text ->
     JSON_parse text = Some (JObject packageProps) ->
     getOwn (str "repository") packageProps = Some (JObject declaredProps) ->
     getOwn (str "url") declaredProps = Some (JString url) ->
     extractRepository w
     = match parseRepository (Some url) with
       | Some repo => (Normal repo, w)
       | None =>
           (Throw PlainError,
            {| remote := remote w; now := now w;
               trace := trace w ++ [Logger (Red repositoryDiagnostic)] |})
       end) /\
  (forall program w e,
     parseRepository (repositoryUrl program) = None ->
     manifestRepository = Throw e ->
     main program w
     = (Throw PlainError,
        {| remote := remote w; now := now w;
           trace := trace w ++ [Logger (Red repositoryDiagnostic)] |}) /\
     exitCode (fst (main program w)) = 1%Z /\
     publishCalls (trace (snd (main program w))) = publishCalls (trace w)).
Proof.
  split; [reflexivity|]. split; [|split].
  - intros program w H. unfold resolveRepository. rewrite H. reflexivity.
  - intros w text packageProps declaredProps url Hfile Hparse Hrepo Hurl.
    rewrite extractRepository_spec. unfold manifestRepository.
    rewrite Hfile, Hparse. cbn [getProperty]. rewrite Hrepo.
    cbn [getProperty]. rewrite Hurl. cbn [parseRepository_any].
    destruct (parseRepository (Some url)); reflexivity.
  - intros program w e Hurl Hmanifest.
    assert (Hmain : main program w
              = (Throw PlainError,
                 {| remote := remote w; now := now w;
                    trace := trace w ++ [Logger (Red repositoryDiagnostic)] |})).
    { unfold main. unfold bind at 1. unfold constructor. unfold bind at 1.
      unfold resolveRepository. rewrite Hurl, extractRepository_spec, Hmanifest.
      reflexivity. }
    rewrite Hmain. split; [reflexivity|]. split; [reflexivity|].
    cbn [snd trace]. rewrite publishCalls_app. simpl. apply app_nil_r.
Qed.

(** Defining a name the properties do not hold puts it last. *)
Lemma defineOwn_absent key v props :
  getOwn key props = None -> defineOwn key v props = props ++ [(key, v)].
Proof.
  induction props as [|[k v0] rest IH]; simpl; intros H; [reflexivity|].
  destruct (jsstring_eqb k key); [discriminate|].
  rewrite (IH H). reflexivity.
Qed.

(** Defining a name the properties hold replaces its value where it is. *)
Lemma defineOwn_present key v before old after :
  getOwn key before = None ->
  defineOwn key v (before ++ (key, old) :: after)
  = before ++ (key, v) :: after.
Proof.
  induction before as [|[k v0] rest IH]; simpl; intros H.
  - rewrite (proj2 (jsstring_eqb_eq key key) eq_refl). reflexivity.
  - destruct (jsstring_eqb k key); [discriminate|].
    rewrite (IH H). reflexivity.
Qed.

(** C8: for a configuration file that parses as an array, [readConfigFile]
    returns one entry per element, in the order of the file; the
    [repository] of each is the resolved repository, and its other
    properties are those of the element of the file, with the same values
    and in the same order.  For an element that is an object this is spelled
    out on its list of properties: without a [repository] of its own the
    entry is that list followed by [repository]; with one, it is that list
    with the value of [repository] replaced where it stands.  An element that
    is [null], a boolean or a number gives an entry with [repository]
    alone. *)
Theorem C8_readConfigFile_attaches_repository :
  forall this text articleConfigFiles,
    readFileSync (config (options (configuration this))) = Some text ->
    JSON_parse text = Some (JArray articleConfigFiles) ->
    exists articles,
      readConfigFile this = Normal articles /\
      List.length articles = List.length articleConfigFiles /\
      forall i entry,
        nth_error articleConfigFiles i = Some entry ->
        exists conf,
          nth_error articles i = Some conf /\
          getOwn (str "repository") conf
          = Some (repositoryValue (repository (configuration this))) /\
          (forall key,
              key <> str "repository" ->
              getOwn key conf = getOwn key (ownEnumerableProperties entry)) /\
          filter (fun k => negb (jsstring_eqb k (str "repository")))
                 (map fst conf)
          = filter (fun k => negb (jsstring_eqb k (str "repository")))
                   (map fst (ownEnumerableProperties entry)) /\
          (forall props,
              entry = JObject props ->
              (forall key,
                  key <> str "repository" ->
                  getOwn key conf = getOwn key props) /\
              filter (fun k => negb (jsstring_eqb k (str "repository")))
                     (map fst conf)
              = filter (fun k => negb (jsstring_eqb k (str "repository")))
                       (map fst props) /\
              (getOwn (str "repository") props = None ->
               conf
               = props
                 ++ [(str "repository",
                      repositoryValue (repository (configuration this)))]) /\
              (forall before old after,
                  props = before ++ (str "repository", old) :: after ->
                  getOwn (str "repository") before = None ->
                  conf
                  = before
                    ++ (str "repository",
                        repositoryValue (repository (configuration this)))
                    :: after)) /\
          (entry = JNull \/ (exists b, entry = JBool b) \/
           (exists x, entry = JNumber x) ->
           conf = [(str "repository",
                    repositoryValue (repository (configuration this)))]).
Proof.
  intros this text articleConfigFiles Hfile Hparse.
  unfold readConfigFile, getConfigPath. rewrite Hfile, Hparse.
  eexists. split; [reflexivity|]. split; [apply length_map|].
  intros i entry Hi.
  exists (withRepository (repository (configuration this)) entry).
  split; [apply map_nth_error; exact Hi|].
  unfold withRepository. split; [apply getOwn_defineOwn_same|].
  split; [intros key Hkey; apply getOwn_defineOwn_other; exact Hkey|].
  split; [apply names_defineOwn|].
  split.
  - intros props ->. cbn [ownEnumerableProperties].
    split; [intros key Hkey; apply getOwn_defineOwn_other; exact Hkey|].
    split; [apply names_defineOwn|].
    split; [apply defineOwn_absent|].
    intros before old after -> Hbefore.
    apply defineOwn_present. exact Hbefore.
  - intros [-> | [(b & ->) | (x & ->)]]; reflexivity.
Qed.

(** C9: [parseRepository] returns [null] for the empty string, at the check
    that also answers an absent URL, so that an empty repository URL on the
    command line is resolved as an absent one is: by [extractRepository],
    with no message of its own; the whole run is the one of the same command
    line without the URL. *)
Theorem C9_empty_url_is_absent_url :
  parseRepository (Some []) = None /\
  parseRepository (Some []) = parseRepository None /\
  (forall w, resolveRepository (Some []) w = extractRepository w) /\
  (forall w, resolveRepository (Some []) w = resolveRepository None w) /\
  (forall path token quiet w,
     main {| config := path; devToToken := token;
             repositoryUrl := Some []; silent := quiet |} w
     = main {| config := path; devToToken := token;
               repositoryUrl := None; silent := quiet |} w).
Proof.
  split; [reflexivity|]. split; [reflexivity|].
  split; [reflexivity|]. split; [reflexivity|].
  intros path token quiet w.
  unfold main, constructor, bind. cbn [repositoryUrl devToToken].
  change (resolveRepository (Some [])) with (resolveRepository None).
  destruct (resolveRepository None w) as [[repo|e|code] w1]; [|reflexivity..].
  destruct (isEmptyOrAbsent token); reflexivity.
Qed.

(** ** More on [parseRepository] *)

(** The second group is read up to the last [.git] the star can reach. *)
Lemma re_name_inv_last g1 s r :
  re_name g1 s = Some r ->
  exists g2 z,
    s = cu_slash :: g2 ++ str ".git" ++ z /\ dotOnly g2 = true /\
    r = (g1, g2) /\
    (forall x z', dotOnly x = true -> z <> x ++ str ".git" ++ z').
Proof.
  unfold re_name. intros H.
  apply r_char_inv in H as (s' & -> & H).
  apply group_star_inv in H as (g2 & b & -> & Hd & H & Hmax).
  apply re_git_inv in H as (z & -> & ->).
  exists g2, z. repeat split; trivial.
  intros x z' Hx ->.
  specialize (Hmax (str ".git" ++ x) (str ".git" ++ z')).
  rewrite re_git_here in Hmax.
  assert (Some (g1, g2 ++ str ".git" ++ x) = None) as Habs; [|discriminate].
  apply Hmax.
  - rewrite <- app_assoc. reflexivity.
  - discriminate.
  - rewrite dotOnly_app, Hx. reflexivity.
Qed.

Lemma re_username_inv_last s r :
  re_username s = Some r ->
  exists z,
    s = cu_slash :: fst r ++ cu_slash :: snd r ++ str ".git" ++ z /\
    dotOnly (fst r) = true /\ dotOnly (snd r) = true /\
    (forall x z', dotOnly x = true -> z <> x ++ str ".git" ++ z').
Proof.
  unfold re_username. intros H.
  apply r_char_inv in H as (s' & -> & H).
  apply group_star_inv in H as (g1 & b & -> & Hd1 & H & _).
  apply re_name_inv_last in H as (g2 & z & -> & Hd2 & -> & Hlast).
  exists z. repeat split; trivial.
Qed.

(** Everything a result of [parseRepository] tells about the text. *)
Lemma parseRepository_inv_last s r :
  parseRepository (Some s) = Some r ->
  dotOnly (username r) = true /\ dotOnly (name r) = true /\
  exists before after,
    s = before ++ cu_slash :: username r ++ cu_slash :: name r
               ++ str ".git" ++ after /\
    (forall x z, dotOnly x = true -> after <> x ++ str ".git" ++ z).
Proof.
  rewrite parseRepository_match. unfold String_match_repositoryRe.
  destruct (RegExp.exec repositoryRe s) as [[g1 g2]|] eqn:E; [|discriminate].
  intros H. injection H as <-. cbn [username name].
  apply exec_inv in E as (skipped & t & -> & E).
  unfold repositoryRe in E.
  apply r_dot_star_inv in E as (a & b & -> & _ & E & _).
  apply re_username_inv_last in E as (z & -> & Hd1 & Hd2 & Hlast).
  cbn [fst snd] in *. repeat split; trivial.
  exists (skipped ++ a), z. rewrite <- app_assoc. split; [reflexivity | exact Hlast].
Qed.

(** X1: the username and the name [parseRepository] returns hold no line
    terminator: a repository is never read across the lines of a text. *)
Theorem X1_parseRepository_within_a_line :
  forall s r,
    parseRepository (Some s) = Some r ->
    dotOnly (username r) = true /\ dotOnly (name r) = true.
Proof.
  intros s r H.
  destruct (parseRepository_inv_last s r H) as (Hu & Hn & _).
  split; assumption.
Qed.

(** X2: the name [parseRepository] returns runs up to the last [.git] of its
    line: the text after the [.git] that ends the name holds no further
    [.git] before the next line terminator. *)
Theorem X2_parseRepository_name_up_to_last_git :
  forall s r,
    parseRepository (Some s) = Some r ->
    exists before after,
      s = before ++ cu_slash :: username r ++ cu_slash :: name r
                 ++ str ".git" ++ after /\
      (forall x z, dotOnly x = true -> after <> x ++ str ".git" ++ z).
Proof.
  intros s r H.
  destruct (parseRepository_inv_last s r H) as (_ & _ & Hdec).
  exact Hdec.
Qed.

(** X3: a text with fewer than two slashes gives [null], whatever else it
    holds: the two slashes of the pattern are needed before [.git]. *)
Theorem X3_parseRepository_needs_two_slashes :
  forall s : jsstring,
    (List.length (filter (N.eqb cu_slash) s) < 2)%nat ->
    parseRepository (Some s) = None.
Proof.
  intros s Hs.
  destruct (parseRepository (Some s)) as [r|] eqn:E; [exfalso | reflexivity].
  apply parseRepository_inv in E as (_ & _ & before & after & ->).
  rewrite filter_app in Hs. cbn [filter] in Hs.
  rewrite N.eqb_refl, filter_app in Hs. cbn [filter] in Hs.
  rewrite N.eqb_refl in Hs.
  rewrite !length_app in Hs. cbn [List.length] in Hs.
  rewrite length_app in Hs. cbn [List.length] in Hs. lia.
Qed.

(** ** More on the repository resolver *)

(** The manifest gives a repository only through the [url] string of its
    [repository] object. *)
Lemma manifestRepository_inv repo :
  manifestRepository = Normal repo ->
  exists text packageProps declaredProps url,
    readFileSync (str "./package.json") = Some text /\
    JSON_parse text = Some (JObject packageProps) /\
    getOwn (str "repository") packageProps = Some (JObject declaredProps) /\
    getOwn (str "url") declaredProps = Some (JString url) /\
    parseRepository (Some url) = Some repo.
Proof.
  unfold manifestRepository.
  destruct (readFileSync (str "./package.json")) as [text|] eqn:Hf;
    [|discriminate].
  destruct (JSON_parse text) as [packageJson|] eqn:Hj; [|discriminate].
  destruct packageJson as [ | | | | |packageProps]; cbn [getProperty];
    try discriminate.
  destruct (getOwn (str "repository") packageProps) as [declared|] eqn:Hd;
    [|discriminate].
  destruct declared as [ | | | | |declaredProps]; cbn [getProperty];
    try discriminate.
  destruct (getOwn (str "url") declaredProps) as [url|] eqn:Hu;
    [|discriminate].
  destruct url as [ |b|x|url|items|props]; cbn [parseRepository_any falsy];
    try discriminate.
  - destruct b; discriminate.
  - destruct x; discriminate.
  - destruct (parseRepository (Some url)) as [repo'|] eqn:Hp; [|discriminate].
    intros H. injection H as ->.
    exists text, packageProps, declaredProps, url. auto.
Qed.

Lemma manifestRepository_not_exit code : manifestRepository <> Exit code.
Proof.
  unfold manifestRepository.
  destruct (readFileSync (str "./package.json")) as [text|]; [|discriminate].
  destruct (JSON_parse text) as [packageJson|]; [|discriminate].
  destruct packageJson as [ | | | | |packageProps]; cbn [getProperty];
    try discriminate.
  destruct (getOwn (str "repository") packageProps) as [declared|];
    [|discriminate].
  destruct declared as [ | | | | |declaredProps]; cbn [getProperty];
    try discriminate.
  destruct (getOwn (str "url") declaredProps) as [url|]; [|discriminate].
  destruct url as [ |b|x|url|items|props]; cbn [parseRepository_any falsy];
    try discriminate.
  - destruct b; discriminate.
  - destruct x; discriminate.
  - destruct (parseRepository (Some url)); discriminate.
Qed.

(** The three ways [constructor] ends. *)
Lemma constructor_cases program w :
  (exists repo,
     fst (resolveRepository (repositoryUrl program) w) = Normal repo /\
     isEmptyOrAbsent (devToToken program) = false /\
     constructor program w
     = (Normal {| configuration := {| options := program; repository := repo |};
                  queue := throttledQueue 1 ARTICLE_UPLOAD_INTERVAL |}, w)) \/
  (exists repo,
     fst (resolveRepository (repositoryUrl program) w) = Normal repo /\
     isEmptyOrAbsent (devToToken program) = true /\
     constructor program w
     = (Exit 1%Z,
        {| remote := remote w; now := now w;
           trace := trace w ++ [Logger (Red tokenDiagnostic)] |})) \/
  (parseRepository (repositoryUrl program) = None /\
   (exists e, manifestRepository = Throw e) /\
   constructor program w
   = (Throw PlainError,
      {| remote := remote w; now := now w;
         trace := trace w ++ [Logger (Red repositoryDiagnostic)] |})).
Proof.
  unfold constructor, bind, resolveRepository.
  destruct (parseRepository (repositoryUrl program)) as [repo|] eqn:Hp.
  - unfold ret at 1. cbn [fst].
    destruct (isEmptyOrAbsent (devToToken program)) eqn:Ht.
    + right. left. exists repo. auto.
    + left. exists repo. auto.
  - rewrite extractRepository_spec.
    destruct manifestRepository as [repo|e|code] eqn:Hm.
    + cbn [fst]. destruct (isEmptyOrAbsent (devToToken program)) eqn:Ht.
      * right. left. exists repo. auto.
      * left. exists repo. auto.
    + right. right. split; [reflexivity|]. split; [exists e; reflexivity|].
      reflexivity.
    + exfalso. exact (manifestRepository_not_exit code Hm).
Qed.

(** X4: [extractRepository] returns a repository only when [package.json]
    parses to an object whose [repository] is an object whose [url] is a
    string that [parseRepository] accepts; it then returns what
    [parseRepository] gives on that string and logs nothing. *)
Theorem X4_extractRepository_reads_repository_url :
  forall w repo w',
    extractRepository w = (Normal repo, w') ->
    w' = w /\
    exists text packageProps declaredProps url,
      readFileSync (str "./package.json") = Some text /\
      JSON_parse text = Some (JObject packageProps) /\
      getOwn (str "repository") packageProps = Some (JObject declaredProps) /\
      getOwn (str "url") declaredProps = Some (JString url) /\
      parseRepository (Some url) = Some repo.
Proof.
  intros w repo w'. rewrite extractRepository_spec.
  destruct manifestRepository as [repo0|e|code] eqn:Hm; try discriminate.
  intros H. injection H as -> ->.
  split; [reflexivity|]. apply manifestRepository_inv. exact Hm.
Qed.

(** X5: when the [repository] of [package.json] is absent or is not an
    object (the short form, a string, is such a value), [extractRepository]
    logs the diagnostic once and throws an error without a message, whatever
    went wrong underneath. *)
Theorem X5_extractRepository_rejects_non_object_repository :
  forall w text packageProps,
    readFileSync (str "./package.json") = Some text ->
    JSON_parse text = Some (JObject packageProps) ->
    (forall declaredProps,
        getOwn (str "repository") packageProps <> Some (JObject declaredProps)) ->
    extractRepository w
    = (Throw PlainError,
       {| remote := remote w; now := now w;
          trace := trace w ++ [Logger (Red repositoryDiagnostic)] |}).
Proof.
  intros w text packageProps Hfile Hparse Hshape.
  rewrite extractRepository_spec.
  destruct manifestRepository as [repo|e|code] eqn:Hm.
  - exfalso.
    destruct (manifestRepository_inv repo Hm)
      as (text' & props' & declaredProps & url & Hf & Hj & Hd & _).
    rewrite Hfile in Hf. injection Hf as <-.
    rewrite Hparse in Hj. injection Hj as <-.
    exact (Hshape declaredProps Hd).
  - reflexivity.
  - exfalso. exact (manifestRepository_not_exit code Hm).
Qed.

(** X6: a constructed [DevToGit] holds the options it was given, a fresh
    queue of one call per 3000 ms and a token that is not empty; its
    repository is the one of the repository URL of the command line when
    [parseRepository] accepts it and the one of the manifest otherwise, and in
    both cases username and name hold neither a slash nor a line terminator;
    the constructor has logged nothing. *)
Theorem X6_constructed_instance :
  forall program w this w',
    constructor program w = (Normal this, w') ->
    w' = w /\
    options (configuration this) = program /\
    queue this = throttledQueue 1 ARTICLE_UPLOAD_INTERVAL /\
    isEmptyOrAbsent (devToToken program) = false /\
    (parseRepository (repositoryUrl program)
     = Some (repository (configuration this)) \/
     parseRepository (repositoryUrl program) = None /\
     manifestRepository = Normal (repository (configuration this))) /\
    slashFree (username (repository (configuration this))) = true /\
    slashFree (name (repository (configuration this))) = true /\
    dotOnly (username (repository (configuration this))) = true /\
    dotOnly (name (repository (configuration this))) = true.
Proof.
  intros program w this w' H.
  destruct (constructor_normal _ _ _ _ H) as (-> & Hq & Ho).
  split; [reflexivity|]. split; [exact Ho|]. split; [exact Hq|].
  destruct (constructor_cases program w)
    as [(repo & Hres & Ht & Hc) | [(repo & _ & _ & Hc) | (_ & _ & Hc)]];
    rewrite Hc in H; try discriminate.
  injection H as <-. cbn [configuration repository].
  split; [exact Ht|].
  assert (Hsrc : parseRepository (repositoryUrl program) = Some repo \/
                 parseRepository (repositoryUrl program) = None /\
                 manifestRepository = Normal repo).
  { unfold resolveRepository in Hres.
    destruct (parseRepository (repositoryUrl program)) as [repo'|].
    - left. cbn in Hres. congruence.
    - right. split; [reflexivity|].
      rewrite extractRepository_spec in Hres.
      destruct manifestRepository; cbn in Hres; congruence. }
  split; [exact Hsrc|].
  assert (Hparsed : exists s, parseRepository (Some s) = Some repo).
  { destruct Hsrc as [Hp | [_ Hm]].
    - destruct (repositoryUrl program) as [s|]; [|discriminate].
      exists s. exact Hp.
    - destruct (manifestRepository_inv repo Hm)
        as (_ & _ & _ & url & _ & _ & _ & _ & Hp).
      exists url. exact Hp. }
  destruct Hparsed as (s & Hp).
  destruct (parseRepository_inv s repo Hp) as (S1 & S2 & _).
  destruct (parseRepository_inv_last s repo Hp) as (D1 & D2 & _).
  auto.
Qed.

(** X7: when the repository is resolved and the token is absent or empty,
    the run logs the token diagnostic and ends with [process.exit(1)]: the
    configuration file is not read and nothing is published. *)
Theorem X7_missing_token_exits :
  forall program w repo,
    fst (resolveRepository (repositoryUrl program) w) = Normal repo ->
    isEmptyOrAbsent (devToToken program) = true ->
    main program w
    = (Exit 1%Z,
       {| remote := remote w; now := now w;
          trace := trace w ++ [Logger (Red tokenDiagnostic)] |}).
Proof.
  intros program w repo Hres Ht.
  destruct (constructor_cases program w)
    as [(repo' & _ & Ht' & _) | [(repo' & _ & _ & Hc) | (Hp & (e & Hm) & _)]].
  - congruence.
  - unfold main. unfold bind at 1. rewrite Hc. reflexivity.
  - exfalso. unfold resolveRepository in Hres. rewrite Hp in Hres.
    rewrite extractRepository_spec, Hm in Hres. discriminate.
Qed.

(** ** More on the publication run *)

(** Either every call resolves, or some call is the first to reject. *)
Lemma outcomes_cases token articles :
  forall r,
    (exists statuses, outcomes token articles r = map Resolved statuses) \/
    (exists statuses e others,
        outcomes token articles r
        = map Resolved statuses ++ Rejected e :: others).
Proof.
  induction articles as [|conf rest IH]; intros r.
  - left. exists []. reflexivity.
  - simpl. destruct (publishArticle conf token r) as [[outcome r'] elapsed].
    destruct outcome as [status|e].
    + destruct (IH r') as [(statuses & ->) | (statuses & e & others & ->)].
      * left. exists (status :: statuses). reflexivity.
      * right. exists (status :: statuses), e, others. reflexivity.
    + right. exists [], e, (outcomes token rest r'). reflexivity.
Qed.

Lemma map_Resolved_inj a b : map Resolved a = map Resolved b -> a = b.
Proof.
  revert b. induction a as [|x a IH]; intros [|y b] H; try discriminate;
    [reflexivity|].
  simpl in H. injection H as -> H. f_equal. apply IH. exact H.
Qed.

Lemma map_Resolved_not_rejected a b e others :
  map Resolved a <> map Resolved b ++ Rejected e :: others.
Proof.
  revert a. induction b as [|y b IH]; intros [|x a] H; try discriminate.
  simpl in H. injection H as _ H. exact (IH a H).
Qed.

Lemma readConfigFile_not_exit this code : readConfigFile this <> Exit code.
Proof.
  unfold readConfigFile.
  destruct (readFileSync (getConfigPath this)); [|discriminate].
  destruct (JSON_parse j) as [v|]; [|discriminate].
  destruct v; discriminate.
Qed.

(** What [publishArticles] does once the configuration file is read. *)
Lemma publishArticles_cases this w articles :
  readConfigFile this = Normal articles ->
  (exists statuses w' starts,
      outcomes (devToToken (options (configuration this))) articles (remote w)
      = map Resolved statuses /\
      publishArticles this w = (Normal statuses, w') /\
      List.length starts = List.length articles /\
      trace w' = trace w ++ publishEvents (combine articles starts)) \/
  (exists statuses e others w' starts,
      outcomes (devToToken (options (configuration this))) articles (remote w)
      = map Resolved statuses ++ Rejected e :: others /\
      publishArticles this w = (Throw e, w') /\
      List.length starts = S (List.length statuses) /\
      trace w'
      = trace w
        ++ publishEvents
             (combine (firstn (S (List.length statuses)) articles) starts)).
Proof.
  intros Hread. unfold publishArticles, bind, lift. rewrite Hread.
  destruct (outcomes_cases (devToToken (options (configuration this)))
              articles (remote w))
    as [(statuses & Hout) | (statuses & e & others & Hout)].
  - left.
    destruct (publishLoop_resolved _ articles (queue this) [] w statuses Hout)
      as (w' & starts & Hrun & Hlen & Htrace).
    exists statuses, w', starts. auto.
  - right.
    destruct (publishLoop_rejected _ articles (queue this) [] w
                statuses e others Hout)
      as (w' & starts & Hrun & Hlen & Htrace).
    exists statuses, e, others, w', starts. auto.
Qed.

(** X8: when the configuration file cannot be read, is not JSON or does not
    hold an array, the run publishes nothing: it logs the generic message
    and the error ([SystemError], [SyntaxError] or [TypeError]) and ends with
    [process.exit(1)]. *)
Theorem X8_unusable_configuration_file :
  forall program w this w1,
    constructor program w = (Normal this, w1) ->
    (forall text articleConfigFiles,
        readFileSync (config program) = Some text ->
        JSON_parse text <> Some (JArray articleConfigFiles)) ->
    exists e,
      (e = SystemError (config program) \/ e = SyntaxError \/ e = TypeError) /\
      main program w
      = (Exit 1%Z,
         {| remote := remote w; now := now w;
            trace := trace w ++ [Logger (Red publishingDiagnostic);
                                 ConsoleError e] |}).
Proof.
  intros program w this w1 Hnew Hbad.
  destruct (constructor_normal _ _ _ _ Hnew) as (-> & _ & Ho).
  assert (Hread : exists e,
             (e = SystemError (config program) \/ e = SyntaxError \/
              e = TypeError) /\ readConfigFile this = Throw e).
  { unfold readConfigFile, getConfigPath. rewrite Ho.
    destruct (readFileSync (config program)) as [text|] eqn:Hf.
    - specialize (Hbad text).
      destruct (JSON_parse text) as [v|].
      + destruct v as [ | | | |items| ];
          try (exists TypeError; split; [auto | reflexivity]).
        exfalso. exact (Hbad items eq_refl eq_refl).
      + exists SyntaxError. auto.
    - exists (SystemError (config program)). auto. }
  destruct Hread as (e & He & Hread).
  exists e. split; [exact He|].
  unfold main. unfold bind at 1. rewrite Hnew.
  unfold try_catch. unfold bind at 1. unfold publishArticles.
  unfold bind at 1. unfold lift. rewrite Hread.
  unfold onRejected, logger, console_error, process_exit, bind, emit.
  cbn [remote now trace]. rewrite <- app_assoc. reflexivity.
Qed.

Lemma publishArticles_not_exit this w code :
  fst (publishArticles this w) <> Exit code.
Proof.
  destruct (readConfigFile this) as [articles|e|code'] eqn:Hread.
  - destruct (publishArticles_cases this w articles Hread)
      as [(statuses & w' & starts & _ & Hrun & _)
         | (statuses & e & others & w' & starts & _ & Hrun & _)];
      rewrite Hrun; discriminate.
  - unfold publishArticles, bind, lift. rewrite Hread. discriminate.
  - exfalso. exact (readConfigFile_not_exit this code' Hread).
Qed.

(** X9: whatever the publisher does, [publishArticles] adds nothing to the
    trace but publish calls, and the configurations it publishes are the
    first ones of the list it has read, each once and in the order of the
    list; it publishes nothing when the file cannot be used, and it never
    ends the process itself. *)
Theorem X9_publishArticles_publishes_a_prefix :
  forall this w,
    exists calls,
      trace (snd (publishArticles this w)) = trace w ++ publishEvents calls /\
      match readConfigFile this with
      | Normal articles =>
          exists n, map fst calls = firstn n articles
      | _ => calls = []
      end /\
      (forall code, fst (publishArticles this w) <> Exit code).
Proof.
  intros this w.
  assert (Hne := publishArticles_not_exit this w).
  destruct (readConfigFile this) as [articles|e|code] eqn:Hread.
  - destruct (publishArticles_cases this w articles Hread)
      as [(statuses & w' & starts & _ & Hrun & Hlen & Htrace)
         | (statuses & e & others & w' & starts & Hout & Hrun & Hlen & Htrace)];
      rewrite Hrun in Hne |- *; cbn [fst snd] in Hne |- *.
    + exists (combine articles starts).
      split; [exact Htrace|]. split; [|exact Hne].
      exists (List.length articles).
      rewrite firstn_all. apply map_fst_combine_same. exact Hlen.
    + exists (combine (firstn (S (List.length statuses)) articles) starts).
      split; [exact Htrace|]. split; [|exact Hne].
      exists (S (List.length statuses)).
      apply map_fst_combine_same.
      rewrite Hlen, firstn_length_le; [reflexivity|].
      rewrite <- (outcomes_length (devToToken (options (configuration this)))
                    articles (remote w)), Hout.
      rewrite length_app, length_map. simpl. lia.
  - exists []. split; [|split; [reflexivity | exact Hne]].
    unfold publishArticles, bind, lift. rewrite Hread.
    cbn [fst snd publishEvents map]. rewrite app_nil_r. reflexivity.
  - exfalso. exact (readConfigFile_not_exit this code Hread).
Qed.

(** X10: [publishArticles] returns a status list exactly when every publish
    call resolves, and the list is then the list of the statuses the calls
    resolved with. *)
Theorem X10_publishArticles_returns_iff_all_resolve :
  forall this w articles statuses,
    readConfigFile this = Normal articles ->
    (fst (publishArticles this w) = Normal statuses <->
     outcomes (devToToken (options (configuration this))) articles (remote w)
     = map Resolved statuses).
Proof.
  intros this w articles statuses Hread.
  destruct (publishArticles_cases this w articles Hread)
    as [(statuses' & w' & starts & Hout & Hrun & _)
       | (statuses' & e & others & w' & starts & Hout & Hrun & _)];
    rewrite Hrun, Hout; cbn [fst]; split; intros H.
  - injection H as ->. reflexivity.
  - f_equal. apply map_Resolved_inj. exact H.
  - discriminate.
  - exfalso. symmetry in H. exact (map_Resolved_not_rejected _ _ _ _ H).
Qed.

(** The script after a constructor that returned. *)
Lemma main_after_constructor program w this :
  constructor program w = (Normal this, w) ->
  main program w
  = match publishArticles this w with
    | (Normal articles, w') => report articles w'
    | (Throw e, w') => onRejected e w'
    | (Exit code, w') => (Exit code, w')
    end.
Proof.
  intros Hnew. unfold main. unfold bind at 1. rewrite Hnew.
  unfold try_catch. unfold bind at 1.
  destruct (publishArticles this w) as [[articles|e|code] w']; [|reflexivity..].
  rewrite report_spec. destruct (anyFailure articles); reflexivity.
Qed.

(** X11: the process ends with code 0 or with code 1 and no other. *)
Theorem X11_exit_code_is_0_or_1 :
  forall program w,
    exitCode (fst (main program w)) = 0%Z \/
    exitCode (fst (main program w)) = 1%Z.
Proof.
  intros program w.
  destruct (constructor_cases program w)
    as [(repo & _ & _ & Hc) | [(repo & _ & _ & Hc) | (_ & _ & Hc)]].
  - rewrite (main_after_constructor _ _ _ Hc).
    destruct (publishArticles _ w) as [[articles|e|code] w'] eqn:Hrun.
    + rewrite report_spec. destruct (anyFailure articles); auto.
    + right. reflexivity.
    + exfalso.
      apply (publishArticles_not_exit
               {| configuration := {| options := program; repository := repo |};
                  queue := throttledQueue 1 ARTICLE_UPLOAD_INTERVAL |} w code).
      rewrite Hrun. reflexivity.
  - right. unfold main. unfold bind at 1. rewrite Hc. reflexivity.
  - right. unfold main. unfold bind at 1. rewrite Hc. reflexivity.
Qed.

(** X12: for the options [commander] has returned from the parse of the
    command line (the parse itself ends the process on [--help] and
    [--version], before any of this), the process ends with code 0 exactly
    when the constructor returns, the configuration file is read, every
    publish call resolves and none of the statuses is of kind [ERROR] or
    [FAILED_TO_EXTRACT_FRONT_MATTER]. *)
Theorem X12_exit_code_0_iff_all_published :
  forall program w,
    exitCode (fst (main program w)) = 0%Z <->
    exists this articles statuses,
      constructor program w = (Normal this, w) /\
      readConfigFile this = Normal articles /\
      outcomes (devToToken program) articles (remote w)
      = map Resolved statuses /\
      anyFailure statuses = false.
Proof.
  intros program w. split.
  - intros Hexit.
    destruct (constructor_cases program w)
      as [(repo & _ & _ & Hc) | [(repo & _ & _ & Hc) | (_ & _ & Hc)]].
    + rewrite (main_after_constructor _ _ _ Hc) in Hexit.
      exists {| configuration := {| options := program; repository := repo |};
                queue := throttledQueue 1 ARTICLE_UPLOAD_INTERVAL |}.
      destruct (readConfigFile
                  {| configuration := {| options := program; repository := repo |};
                     queue := throttledQueue 1 ARTICLE_UPLOAD_INTERVAL |})
        as [articles|e|code] eqn:Hread.
      * destruct (publishArticles_cases _ w articles Hread)
          as [(statuses & w' & starts & Hout & Hrun & _)
             | (statuses & e & others & w' & starts & _ & Hrun & _)];
          rewrite Hrun in Hexit.
        -- exists articles, statuses.
           split; [exact Hc|]. split; [reflexivity|]. split; [exact Hout|].
           rewrite report_spec in Hexit. cbn [fst] in Hexit.
           destruct (anyFailure statuses); [discriminate | reflexivity].
        -- discriminate.
      * exfalso. unfold publishArticles, bind, lift in Hexit.
        rewrite Hread in Hexit. discriminate.
      * exfalso. exact (readConfigFile_not_exit _ code Hread).
    + exfalso. unfold main in Hexit. unfold bind at 1 in Hexit.
      rewrite Hc in Hexit. discriminate.
    + exfalso. unfold main in Hexit. unfold bind at 1 in Hexit.
      rewrite Hc in Hexit. discriminate.
  - intros (this & articles & statuses & Hnew & Hread & Hout & Hok).
    destruct (constructor_normal _ _ _ _ Hnew) as (_ & _ & Ho).
    rewrite (main_after_constructor _ _ _ Hnew).
    rewrite <- Ho in Hout.
    destruct (publishArticles_cases this w articles Hread)
      as [(statuses' & w' & starts & Hout' & Hrun & _)
         | (statuses' & e & others & w' & starts & Hout' & Hrun & _)].
    + rewrite Hrun, report_spec. cbn [fst].
      assert (statuses' = statuses) as ->.
      { apply map_Resolved_inj. rewrite <- Hout, <- Hout'. reflexivity. }
      rewrite Hok. reflexivity.
    + exfalso. rewrite Hout in Hout'.
      exact (map_Resolved_not_rejected _ _ _ _ Hout').
Qed.

(** X13: when every publish call resolves, the script logs the summary of
    all the statuses after the last publish call, whether or not a status
    fails, and only then decides: the process ends with [process.exit(1)] when
    a status is of kind [ERROR] or [FAILED_TO_EXTRACT_FRONT_MATTER] and runs
    to its end otherwise. *)
Theorem X13_summary_follows_every_publication :
  forall program w this articles statuses,
    constructor program w = (Normal this, w) ->
    readConfigFile this = Normal articles ->
    outcomes (devToToken program) articles (remote w) = map Resolved statuses ->
    exists w' starts,
      main program w
      = (if anyFailure statuses then Exit 1%Z else Normal tt, w') /\
      List.length starts = List.length articles /\
      trace w'
      = trace w
        ++ publishEvents (combine articles starts)
        ++ Logger (Plain (formatArticlePublishedStatuses statuses))
        :: map StatusChecked (throughFirstFailure statuses).
Proof.
  intros program w this articles statuses Hnew Hread Hout.
  destruct (constructor_normal _ _ _ _ Hnew) as (_ & _ & Ho).
  rewrite <- Ho in Hout.
  destruct (publishArticles_cases this w articles Hread)
    as [(statuses' & w' & starts & Hout' & Hrun & Hlen & Htrace)
       | (statuses' & e & others & w' & starts & Hout' & _)].
  - assert (statuses' = statuses) as ->.
    { apply map_Resolved_inj. rewrite <- Hout, <- Hout'. reflexivity. }
    rewrite (main_after_constructor _ _ _ Hnew), Hrun, report_spec.
    eexists. exists starts. split; [reflexivity|]. split; [exact Hlen|].
    cbn [trace]. rewrite Htrace, <- app_assoc. reflexivity.
  - exfalso. rewrite Hout in Hout'.
    exact (map_Resolved_not_rejected _ _ _ _ Hout').
Qed.

(** The calls of the loop follow one another: none starts before the loop is
    entered, and each next one starts after the one before has settled. *)
Lemma publishLoop_sequential token articles :
  forall q acc w,
    exists events,
      trace (snd (publishLoop token q articles acc w)) = trace w ++ events /\
      (forall t, nth_error (startTimes events) 0 = Some t -> now w <= t) /\
      (forall i t1 t2 elapsed,
          nth_error (startTimes events) i = Some t1 ->
          nth_error (startTimes events) (S i) = Some t2 ->
          nth_error (elapsedTimes token articles (remote w)) i = Some elapsed ->
          t1 + elapsed <= t2).
Proof.
  induction articles as [|conf rest IH]; intros q acc w.
  - exists []. simpl. rewrite app_nil_r. split; [reflexivity|].
    split; [discriminate|]. intros [|i]; discriminate.
  - rewrite publishLoop_step. cbv zeta. cbn [elapsedTimes].
    set (started := N.max (now w) (nextEligible q)).
    destruct (publishArticle conf token (remote w)) as [[outcome r'] elapsed0].
    cbn [fst snd]. destruct outcome as [status|e].
    + destruct (IH (queueAfter q started) (acc ++ [status])
                   {| remote := r'; now := started + elapsed0;
                      trace := trace w ++ [PublishCall conf started] |})
        as (events & Htrace & Hfirst & Hnext).
      exists (PublishCall conf started :: events).
      rewrite Htrace. cbn [trace]. rewrite <- app_assoc.
      split; [reflexivity|]. rewrite startTimes_cons.
      split.
      * cbn [nth_error]. intros t H. injection H as <-. subst started. lia.
      * intros [|i] t1 t2 elapsed; cbn [nth_error]; intros H1 H2 H3.
        -- injection H1 as <-. injection H3 as <-.
           apply (Hfirst t2 H2).
        -- apply (Hnext i t1 t2 elapsed H1 H2 H3).
    + exists [PublishCall conf started]. cbn [snd trace].
      split; [reflexivity|]. rewrite startTimes_cons.
      split.
      * cbn [nth_error]. intros t H. injection H as <-. subst started. lia.
      * intros [|[|i]] t1 t2 elapsed;
          cbn [nth_error startTimes publishCalls map]; intros H1 H2;
          discriminate.
Qed.

(** X15: the publish calls of a run never overlap: the first starts no
    earlier than [publishArticles] is called, and each later one starts no
    earlier than the call before it has settled. *)
Theorem X15_publish_calls_do_not_overlap :
  forall this w articles,
    readConfigFile this = Normal articles ->
    exists events,
      trace (snd (publishArticles this w)) = trace w ++ events /\
      (forall t, nth_error (startTimes events) 0 = Some t -> now w <= t) /\
      (forall i t1 t2 elapsed,
          nth_error (startTimes events) i = Some t1 ->
          nth_error (startTimes events) (S i) = Some t2 ->
          nth_error
            (elapsedTimes (devToToken (options (configuration this)))
               articles (remote w)) i
          = Some elapsed ->
          t1 + elapsed <= t2).
Proof.
  intros this w articles Hread.
  unfold publishArticles, bind, lift. rewrite Hread.
  apply publishLoop_sequential.
Qed.

(** ** More on the configuration entries *)

Lemma names_defineOwn_in key v props k :
  In k (map fst (defineOwn key v props)) <-> k = key \/ In k (map fst props).
Proof using.
  induction props as [|[k0 v0] rest IH]; simpl.
  - split; [intros [<-|[]]; auto | intros [->|[]]; auto].
  - destruct (jsstring_eqb k0 key) eqn:E; simpl.
    + apply jsstring_eqb_eq in E. subst k0.
      split; [intros [<-|H]; auto | intros [->|[<-|H]]; auto].
    + rewrite IH. split; [intros [H|[H|H]]; auto | intros [H|[H|H]]; auto].
Qed.

Lemma defineOwn_NoDup key v props :
  NoDup (map fst props) -> NoDup (map fst (defineOwn key v props)).
Proof using.
  induction props as [|[k0 v0] rest IH]; simpl; intros H.
  - constructor; [intros [] | constructor].
  - destruct (jsstring_eqb k0 key) eqn:E; simpl; [exact H|].
    inversion H as [|? ? Hnotin Hrest]; subst.
    constructor; [|apply IH; exact Hrest].
    rewrite names_defineOwn_in. intros [->|Hin]; [|contradiction].
    rewrite (proj2 (jsstring_eqb_eq key key) eq_refl) in E. discriminate.
Qed.

Lemma defineOwn_length key v props :
  List.length (defineOwn key v props)
  = match getOwn key props with
    | Some _ => List.length props
    | None => S (List.length props)
    end.
Proof.
  induction props as [|[k0 v0] rest IH]; simpl; [reflexivity|].
  destruct (jsstring_eqb k0 key); simpl; [reflexivity|].
  rewrite IH. destruct (getOwn key rest); reflexivity.
Qed.

(** X14: the object [readConfigFile] builds for an entry holds [repository]
    once: when the names of the properties of the entry are distinct, so are
    those of the object; an entry that has a [repository] of its own keeps
    its number of properties, any other gains one. *)
Theorem X14_withRepository_keeps_names_distinct :
  forall repo entry,
    NoDup (map fst (ownEnumerableProperties entry)) ->
    NoDup (map fst (withRepository repo entry)) /\
    In (str "repository") (map fst (withRepository repo entry)) /\
    List.length (withRepository repo entry)
    = match getOwn (str "repository") (ownEnumerableProperties entry) with
      | Some _ => List.length (ownEnumerableProperties entry)
      | None => S (List.length (ownEnumerableProperties entry))
      end.
Proof using.
  intros repo entry H. unfold withRepository.
  split; [apply defineOwn_NoDup; exact H|].
  split; [apply names_defineOwn_in; left; reflexivity|].
  apply defineOwn_length.
Qed.

End Program.

(** ** The theorems at the sample data *)

Lemma C1_witness :
  readConfigFile Sample.readFileSync Sample.JSON_parse Sample.devToGit
  = Normal (map (withRepository Sample.alice_blog)
              [Sample.entry1; Sample.entry2]) /\
  exists statuses w',
    publishArticles Sample.Remote Sample.publishResolving Sample.readFileSync
      Sample.JSON_parse Sample.devToGit Sample.w0
    = (Normal statuses, w') /\
    List.length statuses = 2%nat /\
    map Resolved statuses = [Resolved (Sample.failed 1);
                             Resolved (Sample.created 2)].
Proof.
  split; [reflexivity|].
  destruct (C1_publishArticles_keeps_order Sample.Remote
              Sample.publishResolving Sample.readFileSync Sample.JSON_parse
              Sample.devToGit Sample.w0
              (map (withRepository Sample.alice_blog)
                 [Sample.entry1; Sample.entry2]))
    as (statuses & w' & Hrun & Hlen & Hout & _).
  - reflexivity.
  - intros conf r. eexists. reflexivity.
  - exists statuses, w'. split; [exact Hrun|]. split; [exact Hlen|].
    exact Hout.
Defined.

Lemma C2_counterexample :
  checkedStatuses
    (trace (snd (report Sample.Remote Sample.format
                   [Sample.failed 1; Sample.created 2] Sample.w0)))
  = [Sample.failed 1] /\
  checkedStatuses
    (trace (snd (report Sample.Remote Sample.format
                   [Sample.failed 1; Sample.created 2] Sample.w0)))
  <> [Sample.failed 1; Sample.created 2].
Proof. split; [reflexivity | discriminate]. Qed.

Lemma C4_witness :
  constructor Sample.Remote Sample.readFileSync Sample.JSON_parse
    Sample.opts Sample.w0
  = (Normal Sample.devToGit, Sample.w0) /\
  exists w3,
    main Sample.Remote Sample.publishRejecting Sample.readFileSync
      Sample.JSON_parse Sample.format Sample.opts Sample.w0
    = (Exit 1%Z, w3) /\
    map fst (publishCalls (trace w3))
    = map (withRepository Sample.alice_blog) [Sample.entry1; Sample.entry2].
Proof.
  split; [vm_compute; reflexivity|].
  destruct (C4_rejected_publish_aborts_run Sample.Remote
              Sample.publishRejecting Sample.readFileSync Sample.JSON_parse
              Sample.format Sample.opts Sample.w0 Sample.devToGit Sample.w0
              (map (withRepository Sample.alice_blog)
                 [Sample.entry1; Sample.entry2])
              [Sample.created 1] (OtherError (str "socket hang up")) [])
    as (w2 & w3 & starts & _ & Hmain & _ & _ & Hcalls & _).
  - vm_compute. reflexivity.
  - reflexivity.
  - reflexivity.
  - exists w3. split; [exact Hmain | exact Hcalls].
Defined.

Lemma C5_witness :
  constructor Sample.Remote Sample.readFileSync Sample.JSON_parse
    Sample.opts Sample.w0
  = (Normal Sample.devToGit, Sample.w0) /\
  interval (queue Sample.devToGit) = 3000.
Proof.
  split; [vm_compute; reflexivity|].
  apply (C5_publish_calls_are_spaced Sample.Remote Sample.publishResolving
           Sample.readFileSync Sample.JSON_parse Sample.opts Sample.w0
           Sample.devToGit Sample.w0).
  vm_compute. reflexivity.
Defined.

Lemma C6_witness :
  parseRepository (Some (str "git@example.com:team/alice/blog.git"))
  = Some {| username := str "alice"; name := str "blog" |} /\
  slashFree (str "alice") = true /\
  (exists r,
     parseRepository (Some (str "x/a/b.git/c/d.git")) = Some r /\
     slashFree (username r) = true) /\
  parseRepository (Some (str "no repository here")) = None.
Proof.
  destruct C6_parseRepository_segments as (Hexact & Hany & Hinv & _ & _ & Hnone).
  split; [|split; [|split]].
  - apply (Hexact (str "git@example.com:team") (str "alice") (str "blog"));
      reflexivity.
  - apply (Hinv (str "https://example.com/alice/blog.git")
             {| username := str "alice"; name := str "blog" |}).
    vm_compute. reflexivity.
  - destruct (Hany (str "x") (str "a") (str "b") (str "/c/d.git"))
      as (r & Hr & Hu & _); [reflexivity | reflexivity |].
    exists r. split; [exact Hr | exact Hu].
  - apply Hnone. reflexivity.
Defined.

Lemma C7_witness :
  main Sample.Remote Sample.publishResolving Sample.readFileSync_bare
    Sample.JSON_parse Sample.format Sample.opts Sample.w0
  = (Throw PlainError,
     {| remote := 0%nat; now := 5;
        trace := [Logger (Red repositoryDiagnostic)] |}) /\
  resolveRepository Sample.Remote Sample.readFileSync Sample.JSON_parse
    (Some (str "https://example.com/alice/blog")) Sample.w0
  = (Normal Sample.alice_blog, Sample.w0).
Proof.
  destruct (C7_manifest_fallback_and_fatal_error Sample.Remote
              Sample.publishResolving Sample.readFileSync_bare
              Sample.JSON_parse Sample.format) as (_ & _ & _ & Hfatal).
  destruct (C7_manifest_fallback_and_fatal_error Sample.Remote
              Sample.publishResolving Sample.readFileSync
              Sample.JSON_parse Sample.format) as (_ & Hfallback & Hmanifest & _).
  split.
  - apply (Hfatal Sample.opts Sample.w0 (SystemError (str "./package.json")));
      reflexivity.
  - etransitivity.
    + exact (Hfallback
               {| config := DEFAULT_CONFIG_PATH;
                  devToToken := Some (str "token");
                  repositoryUrl := Some (str "https://example.com/alice/blog");
                  silent := false |} Sample.w0 eq_refl).
    + exact (Hmanifest Sample.w0 (str "manifest")
               [(str "name", JString (str "blog"));
                (str "repository",
                 JObject [(str "type", JString (str "git"));
                          (str "url",
                           JString (str "https://example.com/alice/blog.git"))])]
               [(str "type", JString (str "git"));
                (str "url", JString (str "https://example.com/alice/blog.git"))]
               (str "https://example.com/alice/blog.git")
               eq_refl eq_refl eq_refl eq_refl).
Defined.

Lemma C8_witness :
  readConfigFile Sample.readFileSync Sample.JSON_parse Sample.devToGit
  = Normal
      [[(str "id", JNumber (S754_finite false 1 0));
        (str "relativePathToArticle", JString (str "./blog/a.md"));
        (str "repository",
         JObject [(str "username", JString (str "alice"));
                  (str "name", JString (str "blog"))])];
       [(str "id", JNumber (S754_finite false 1 1));
        (str "relativePathToArticle", JString (str "./blog/b.md"));
        (str "repository",
         JObject [(str "username", JString (str "alice"));
                  (str "name", JString (str "blog"))])]].
Proof.
  destruct (C8_readConfigFile_attaches_repository Sample.readFileSync
              Sample.JSON_parse Sample.devToGit (str "articles")
              [Sample.entry1; Sample.entry2])
    as (articles & Hread & Hlen & Hentries).
  - reflexivity.
  - reflexivity.
  - destruct (Hentries 0%nat Sample.entry1 eq_refl)
      as (conf1 & Hnth1 & _ & _ & _ & Hobject1 & _).
    destruct (Hentries 1%nat Sample.entry2 eq_refl)
      as (conf2 & Hnth2 & _ & _ & _ & Hobject2 & _).
    destruct (Hobject1 _ eq_refl) as (_ & _ & Happend1 & _).
    destruct (Hobject2 _ eq_refl) as (_ & _ & Happend2 & _).
    rewrite (Happend1 eq_refl) in Hnth1.
    rewrite (Happend2 eq_refl) in Hnth2.
    rewrite Hread.
    destruct articles as [|a1 [|a2 [|a3 rest]]]; try discriminate Hlen.
    cbn [nth_error] in Hnth1, Hnth2.
    injection Hnth1 as ->. injection Hnth2 as ->. reflexivity.
Defined.

Lemma C10_witness :
  parseRepository (Some (str "see https://example.com/alice/blog.git?ref=main"))
  <> None /\
  parseRepository (Some (str "see https://example.com/alice/blog.git?ref=main"))
  = Some {| username := str "alice"; name := str "blog" |}.
Proof.
  destruct C10_parseRepository_unanchored as (Hany & _ & Hexact).
  split.
  - apply (Hany (str "see https://example.com") (str "alice") (str "blog")
             (str "?ref=main")); reflexivity.
  - apply (Hexact (str "see https://example.com") (str "alice") (str "blog")
             (str "?ref=main")); reflexivity.
Defined.

Lemma X1_witness :
  parseRepository (Some (str "https://example.com/alice/blog.git"))
  = Some Sample.alice_blog /\
  dotOnly (username Sample.alice_blog) = true /\
  dotOnly (name Sample.alice_blog) = true.
Proof.
  split; [vm_compute; reflexivity|].
  apply (X1_parseRepository_within_a_line
           (str "https://example.com/alice/blog.git") Sample.alice_blog).
  vm_compute. reflexivity.
Defined.

Lemma X2_witness :
  exists before after,
    str "x/a/b.git.git/c"
    = before ++ cu_slash :: str "a" ++ cu_slash :: str "b.git"
             ++ str ".git" ++ after /\
    (forall x z, dotOnly x = true -> after <> x ++ str ".git" ++ z).
Proof.
  apply (X2_parseRepository_name_up_to_last_git (str "x/a/b.git.git/c")
           {| username := str "a"; name := str "b.git" |}).
  vm_compute. reflexivity.
Defined.

Lemma X3_witness :
  parseRepository (Some (str "git@example.com:alice/blog.git")) = None.
Proof.
  apply X3_parseRepository_needs_two_slashes. vm_compute. lia.
Defined.

Lemma X4_witness :
  exists text packageProps declaredProps url,
    Sample.readFileSync (str "./package.json") = Some text /\
    Sample.JSON_parse text = Some (JObject packageProps) /\
    getOwn (str "repository") packageProps = Some (JObject declaredProps) /\
    getOwn (str "url") declaredProps = Some (JString url) /\
    parseRepository (Some url) = Some Sample.alice_blog.
Proof.
  apply (X4_extractRepository_reads_repository_url Sample.Remote
           Sample.readFileSync Sample.JSON_parse Sample.w0
           Sample.alice_blog Sample.w0).
  vm_compute. reflexivity.
Defined.

Lemma X5_witness :
  extractRepository Sample.Remote Sample.readFileSync Sample.JSON_parse_short
    Sample.w0
  = (Throw PlainError,
     {| remote := 0%nat; now := 5;
        trace := [Logger (Red repositoryDiagnostic)] |}).
Proof.
  apply (X5_extractRepository_rejects_non_object_repository Sample.Remote
           Sample.readFileSync Sample.JSON_parse_short Sample.w0
           (str "manifest") Sample.manifest_short).
  - reflexivity.
  - reflexivity.
  - intros declaredProps H. vm_compute in H. discriminate H.
Defined.

Lemma X6_witness :
  constructor Sample.Remote Sample.readFileSync Sample.JSON_parse
    Sample.opts Sample.w0
  = (Normal Sample.devToGit, Sample.w0) /\
  slashFree (username (repository (configuration Sample.devToGit))) = true.
Proof.
  split; [vm_compute; reflexivity|].
  apply (X6_constructed_instance Sample.Remote Sample.readFileSync
           Sample.JSON_parse Sample.opts Sample.w0 Sample.devToGit Sample.w0).
  vm_compute. reflexivity.
Defined.

Lemma X7_witness :
  main Sample.Remote Sample.publishResolving Sample.readFileSync
    Sample.JSON_parse Sample.format Sample.opts_without_token Sample.w0
  = (Exit 1%Z,
     {| remote := 0%nat; now := 5;
        trace := [Logger (Red tokenDiagnostic)] |}).
Proof.
  apply (X7_missing_token_exits Sample.Remote Sample.publishResolving
           Sample.readFileSync Sample.JSON_parse Sample.format
           Sample.opts_without_token Sample.w0 Sample.alice_blog).
  - vm_compute. reflexivity.
  - reflexivity.
Defined.

Lemma X8_witness :
  exists e,
    main Sample.Remote Sample.publishResolving Sample.readFileSync
      Sample.JSON_parse Sample.format Sample.opts_elsewhere Sample.w0
    = (Exit 1%Z,
       {| remote := 0%nat; now := 5;
          trace := [Logger (Red publishingDiagnostic); ConsoleError e] |}).
Proof.
  destruct (X8_unusable_configuration_file Sample.Remote
              Sample.publishResolving Sample.readFileSync Sample.JSON_parse
              Sample.format Sample.opts_elsewhere Sample.w0
              {| configuration := {| options := Sample.opts_elsewhere;
                                     repository := Sample.alice_blog |};
                 queue := throttledQueue 1 ARTICLE_UPLOAD_INTERVAL |}
              Sample.w0) as (e & _ & Hmain).
  - vm_compute. reflexivity.
  - intros text articleConfigFiles H. vm_compute in H. discriminate H.
  - exists e. exact Hmain.
Defined.

Lemma X10_witness :
  fst (publishArticles Sample.Remote Sample.publishResolving
         Sample.readFileSync Sample.JSON_parse Sample.devToGit Sample.w0)
  = Normal [Sample.failed 1; Sample.created 2].
Proof.
  apply (X10_publishArticles_returns_iff_all_resolve Sample.Remote
           Sample.publishResolving Sample.readFileSync Sample.JSON_parse
           Sample.devToGit Sample.w0
           (map (withRepository Sample.alice_blog)
              [Sample.entry1; Sample.entry2])
           [Sample.failed 1; Sample.created 2]).
  - reflexivity.
  - reflexivity.
Defined.

Lemma X12_witness :
  exitCode
    (fst (main Sample.Remote Sample.publishRejecting Sample.readFileSync
            Sample.JSON_parse Sample.format
            {| config := DEFAULT_CONFIG_PATH;
               devToToken := Some (str "token");
               repositoryUrl := Some (str "https://example.com/bob/notes.git");
               silent := false |}
            {| remote := 2%nat; now := 0; trace := [] |}))
  = 0%Z.
Proof.
  apply (X12_exit_code_0_iff_all_published Sample.Remote
           Sample.publishRejecting Sample.readFileSync Sample.JSON_parse
           Sample.format).
  eexists. eexists. exists [Sample.created 1; Sample.created 1].
  split; [vm_compute; reflexivity|].
  split; [vm_compute; reflexivity|].
  split; reflexivity.
Defined.

Lemma X13_witness :
  exists w' starts,
    main Sample.Remote Sample.publishResolving Sample.readFileSync
      Sample.JSON_parse Sample.format Sample.opts Sample.w0
    = (Exit 1%Z, w') /\
    List.length starts = 2%nat /\
    trace w'
    = publishEvents
        (combine (map (withRepository Sample.alice_blog)
                    [Sample.entry1; Sample.entry2]) starts)
      ++ Logger (Plain (str "summary"))
      :: [StatusChecked (Sample.failed 1)].
Proof.
  apply (X13_summary_follows_every_publication Sample.Remote
           Sample.publishResolving Sample.readFileSync Sample.JSON_parse
           Sample.format Sample.opts Sample.w0 Sample.devToGit
           (map (withRepository Sample.alice_blog)
              [Sample.entry1; Sample.entry2])
           [Sample.failed 1; Sample.created 2]).
  - vm_compute. reflexivity.
  - reflexivity.
  - reflexivity.
Defined.

Lemma X14_witness :
  NoDup (map fst (withRepository Sample.alice_blog Sample.entry1)) /\
  List.length (withRepository Sample.alice_blog Sample.entry1) = 3%nat.
Proof.
  destruct (X14_withRepository_keeps_names_distinct Sample.alice_blog
              Sample.entry1) as (Hnodup & _ & Hlen).
  - repeat constructor; vm_compute; intuition discriminate.
  - split; [exact Hnodup | exact Hlen].
Defined.

Lemma X15_witness :
  exists events,
    trace (snd (publishArticles Sample.Remote Sample.publishResolving
                  Sample.readFileSync Sample.JSON_parse Sample.devToGit
                  Sample.w0))
    = events /\
    (forall t, nth_error (startTimes events) 0 = Some t -> 5 <= t).
Proof.
  destruct (X15_publish_calls_do_not_overlap Sample.Remote
              Sample.publishResolving Sample.readFileSync Sample.JSON_parse
              Sample.devToGit Sample.w0
              (map (withRepository Sample.alice_blog)
                 [Sample.entry1; Sample.entry2]))
    as (events & Htrace & Hfirst & _).
  - reflexivity.
  - exists events. split; [exact Htrace | exact Hfirst].
Defined.
